(** * biosim4: barrier generation ([Grid::createBarrier], createBarrier.cpp)

    A shallow embedding of [Grid::createBarrier] and the properties of the
    barrier records it leaves behind.

    Conventions of the embedding.
    - [int16_t] and [unsigned] values are integers of [Z]; every conversion
      to [int16_t] is written [int16] (two's complement wrap-around), every
      [unsigned] result [uint32], and [/] of C++ is [Z.quot].
    - A [for] loop whose counter is an [int16_t] is run by [for16] with the
      wrap-around of [++x] written out; as such a loop need not end, it
      takes fuel, and so does the [while] loop of barrier type 5. The loops
      over [unsigned] counters with constant bounds are folds.
    - The grid is a finite map from coordinates to cells, together with the
      two barrier records and a log of the calls of [grid.set].
    - The collaborators that createBarrier.cpp only calls, the random
      source [randomUint] and the visitor [visitNeighborhood], are
      interfaces; what the file uses of [Coord] and [Grid::set] is modelled
      from their description.
    - [p.sizeX] and [p.sizeY] are read from the parameter record [p]; the
      theorems state the range of dimensions they hold for.
    - The order of the two draws of [randomLoc], which C++ leaves to the
      implementation, is a parameter ([ArgumentOrder]): what is proved
      holds for every order. *)

From stdpp Require Import gmap list.

Open Scope Z_scope.

(** [lia] also decides goals with division and remainder by constants. *)
Ltac Zify.zify_post_hook ::= Z.to_euclidean_division_equations.

(** ** Machine integers *)

Definition INT16_MAX : Z := 32767.
Definition INT16_MIN : Z := -32768.

(** Conversion to [int16_t]. *)
Definition int16 (z : Z) : Z := (z + 32768) `mod` 65536 - 32768.

(** Conversion to [unsigned] (32 bits). *)
Definition uint32 (z : Z) : Z := z `mod` 4294967296.

(** ** Coordinates *)

Record Coord := mkCoord { coordX : Z; coordY : Z }.

Global Instance Coord_eq_dec : EqDecision Coord.
Proof. solve_decision. Defined.

Global Instance Coord_countable : Countable Coord.
Proof.
  refine (inj_countable' (fun c => (coordX c, coordY c))
                         (fun q => mkCoord q.1 q.2) _).
  by intros [].
Defined.

Global Instance Coord_inhabited : Inhabited Coord := populate (mkCoord 0 0).

(** Modelled from the spec: [Coord::operator-] (declared in a header that
    createBarrier.cpp includes): componentwise subtraction; the components
    of the result are [int16_t] again. *)
Definition Coord_sub (a b : Coord) : Coord :=
  mkCoord (int16 (coordX a - coordX b)) (int16 (coordY a - coordY b)).

(** Modelled from the spec: [Coord::length] (same header): the Euclidean
    length, as a whole number of cells (rounded down). *)
Definition Coord_length (c : Coord) : Z :=
  Z.sqrt (coordX c * coordX c + coordY c * coordY c).

(** ** The grid and its barrier records *)

Inductive Cell := EMPTY | BARRIER | OCCUPANT (index : Z).

Global Instance Cell_eq_dec : EqDecision Cell.
Proof. solve_decision. Defined.

Record Params := mkParams { sizeX : Z; sizeY : Z }.

(** [data] is the cell store, [barrierLocations] and [barrierCenters] the
    two records; [setLog] is ghost state: the calls of [grid.set] so far,
    oldest first. *)
Record Grid := mkGrid {
  data : gmap Coord Cell;
  barrierLocations : list Coord;
  barrierCenters : list Coord;
  setLog : list (Coord * Cell)
}.

(** Modelled from the spec: [Grid::set] (same header): stores [val] in the
    cell at [loc]; no range check and no clamping. *)
Definition grid_set (loc : Coord) (val : Cell) (g : Grid) : Grid :=
  {| data := <[loc := val]> (data g);
     barrierLocations := barrierLocations g;
     barrierCenters := barrierCenters g;
     setLog := setLog g ++ [(loc, val)] |}.

Definition barrierLocations_push_back (loc : Coord) (g : Grid) : Grid :=
  {| data := data g;
     barrierLocations := barrierLocations g ++ [loc];
     barrierCenters := barrierCenters g;
     setLog := setLog g |}.

Definition barrierCenters_push_back (loc : Coord) (g : Grid) : Grid :=
  {| data := data g;
     barrierLocations := barrierLocations g;
     barrierCenters := barrierCenters g ++ [loc];
     setLog := setLog g |}.

Definition barrierLocations_clear (g : Grid) : Grid :=
  {| data := data g;
     barrierLocations := [];
     barrierCenters := barrierCenters g;
     setLog := setLog g |}.

Definition barrierCenters_clear (g : Grid) : Grid :=
  {| data := data g;
     barrierLocations := barrierLocations g;
     barrierCenters := [];
     setLog := setLog g |}.

(** ** Collaborators *)

(** The random source: [randomUint lo hi] draws from the generator state. *)
Class RandomSource (R : Type) := randomUint : Z -> Z -> R -> Z * R.

(** The order in which an implementation evaluates the two arguments of
    [Coord(randomUint(..), randomUint(..))] in [randomLoc]: C++ leaves it
    open. [xDrawnFirst rng] tells whether, at a call made in the state
    [rng], the draw for x comes before the draw for y. *)
Class ArgumentOrder (R : Type) := xDrawnFirst : R -> bool.

(** The neighbourhood visitor: [visitNeighborhood p loc radius] is the
    sequence of cells on which the visitor calls its callback. *)
Class NeighborhoodVisitor := visitNeighborhood : Params -> Coord -> Z -> list Coord.

(** ** Loops *)

(** [for (int16_t x = lo; x <= hi; ++x) body]. *)
Fixpoint for16 {S : Type} (fuel : nat) (x hi : Z)
    (body : Z -> S -> option S) (s : S) : option S :=
  match fuel with
  | O => None
  | Datatypes.S n =>
      if x <=? hi then
        match body x s with
        | Some s' => for16 n (int16 (x + 1)) hi body s'
        | None => None
        end
      else Some s
  end.

(** How a call of [createBarrier] ends: by returning, in [assert(false)]
    (assertions are taken as compiled in), or never, when the fuel runs
    out. *)
Inductive outcome (R : Type) :=
| Returned (g : Grid) (rng : R)
| AssertionFailed (g : Grid) (rng : R)
| OutOfFuel.
Arguments Returned {R} g rng.
Arguments AssertionFailed {R} g rng.
Arguments OutOfFuel {R}.

Definition finish {R : Type} (r : option Grid) (rng : R) : outcome R :=
  match r with
  | Some g => Returned g rng
  | None => OutOfFuel
  end.

(** ** createBarrier *)

Section CreateBarrier.
Context {R : Type} {rand : RandomSource R} {visitor : NeighborhoodVisitor}
  {order : ArgumentOrder R}.
Variable p : Params.

(** The body of the innermost loops, and of the callback [f]. *)
Definition mark (loc : Coord) (g : Grid) : Grid :=
  barrierLocations_push_back loc (grid_set loc BARRIER g).

Definition drawBox (fuel : nat) (minX minY maxX maxY : Z) (g : Grid)
    : option Grid :=
  for16 fuel minX maxX (fun x g =>
    for16 fuel minY maxY (fun y g => Some (mark (mkCoord x y) g)) g) g.

(** [visitNeighborhood(loc, radius, f)] with the callback [f] of types 5
    and 6. *)
Definition visit (loc : Coord) (radius : Z) (g : Grid) : Grid :=
  foldl (fun g c => mark c g) g (visitNeighborhood p loc radius).

Definition numIslands : nat := 12.

(** The sampling of barrier type 5, for [margin] and the twelve islands. *)
Section Islands.
Variable margin : Z.

(** The lambda [randomLoc]: one draw per axis, each from the range of its
    axis, in the order the implementation evaluates the two arguments. *)
Definition randomLoc (rng : R) : Coord * R :=
  if xDrawnFirst rng then
    let '(rx, rng) := randomUint margin (uint32 (sizeX p - margin)) rng in
    let '(ry, rng) := randomUint margin (uint32 (sizeY p - margin)) rng in
    (mkCoord (int16 rx) (int16 ry), rng)
  else
    let '(ry, rng) := randomUint margin (uint32 (sizeY p - margin)) rng in
    let '(rx, rng) := randomUint margin (uint32 (sizeX p - margin)) rng in
    (mkCoord (int16 rx) (int16 ry), rng).

(** [for (idx = 0; idx < numIslands; ++idx) centers[idx] = randomLoc();] *)
Definition resample (centers : list Coord) (rng : R) : list Coord * R :=
  foldl (fun '(centers, rng) idx =>
           let '(c, rng) := randomLoc rng in (<[idx := c]> centers, rng))
        (centers, rng) (seq 0 numIslands).

(** The two loops over [a < b] that start from [placementValid = true] and
    reset it for every pair closer than [margin]. *)
Definition checkPlacement (centers : list Coord) : bool :=
  foldl (fun placementValid a =>
    foldl (fun placementValid b =>
             if Coord_length (Coord_sub (centers !!! a) (centers !!! b)) <? margin
             then false else placementValid)
          placementValid (seq (a + 1) (numIslands - (a + 1))))
    true (seq 0 (numIslands - 1)).

(** [while (!placementValid) { ... }] *)
Fixpoint placementLoop (fuel : nat) (placementValid : bool)
    (centers : list Coord) (rng : R) : option (list Coord * R) :=
  match fuel with
  | O => None
  | S n =>
      if negb placementValid then
        let '(centers, rng) := resample centers rng in
        placementLoop n (checkPlacement centers) centers rng
      else Some (centers, rng)
  end.
End Islands.

Definition createBarrier (fuel : nat) (barrierType : Z) (rng : R) (g : Grid)
    : outcome R :=
  let g := barrierLocations_clear g in
  let g := barrierCenters_clear g in
  match barrierType with
  | 0 => Returned g rng
  | 1 =>
      let minX := int16 (sizeX p ÷ 2) in
      let maxX := int16 (minX + 1) in
      let minY := int16 (sizeY p ÷ 4) in
      let maxY := int16 (minY + sizeY p ÷ 2) in
      finish
        (for16 fuel minX maxX (fun x g =>
           for16 fuel minY maxY (fun y g => Some (mark (mkCoord x y) g)) g) g)
        rng
  | 2 =>
      let '(rx, rng) :=
        randomUint (uint32 (sizeX p ÷ 10)) (uint32 (sizeX p - sizeX p ÷ 10)) rng in
      let midX := int16 rx in
      let '(ry, rng) :=
        randomUint (uint32 (sizeY p ÷ 4)) (uint32 (sizeY p - sizeY p ÷ 4)) rng in
      let midY := int16 ry in
      let minX := int16 (midX - 1) in
      let maxX := int16 (midX + 1) in
      let minY := int16 (midY - sizeY p ÷ 4) in
      let maxY := int16 (midY + sizeY p ÷ 4) in
      let g := barrierCenters_push_back (mkCoord midX midY) g in
      finish
        (for16 fuel minX maxX (fun x g =>
           for16 fuel minY maxY (fun y g => Some (mark (mkCoord x y) g)) g) g)
        rng
  | 3 =>
      let blockSizeX := int16 2 in
      let blockSizeY := int16 (sizeX p ÷ 3) in
      let x0 := int16 (sizeX p ÷ 4 - blockSizeX ÷ 2) in
      let y0 := int16 (sizeY p ÷ 4 - blockSizeY ÷ 2) in
      let x1 := int16 (x0 + blockSizeX) in
      let y1 := int16 (y0 + blockSizeY) in
      finish
        (g ← drawBox fuel x0 y0 x1 y1 g;
         let x0 := int16 (x0 + sizeX p ÷ 2) in
         let x1 := int16 (x0 + blockSizeX) in
         g ← drawBox fuel x0 y0 x1 y1 g;
         let y0 := int16 (y0 + sizeY p ÷ 2) in
         let y1 := int16 (y0 + blockSizeY) in
         g ← drawBox fuel x0 y0 x1 y1 g;
         let x0 := int16 (x0 - sizeX p ÷ 2) in
         let x1 := int16 (x0 + blockSizeX) in
         g ← drawBox fuel x0 y0 x1 y1 g;
         let x0 := int16 (sizeX p ÷ 2 - blockSizeX ÷ 2) in
         let x1 := int16 (x0 + blockSizeX) in
         let y0 := int16 (sizeY p ÷ 2 - blockSizeY ÷ 2) in
         let y1 := int16 (y0 + blockSizeY) in
         drawBox fuel x0 y0 x1 y1 g)
        rng
  | 4 =>
      let minX := int16 (sizeX p ÷ 4) in
      let maxX := int16 (minX + sizeX p ÷ 2) in
      let minY := int16 (sizeY p ÷ 2 + sizeY p ÷ 4) in
      let maxY := int16 (minY + 2) in
      finish
        (for16 fuel minX maxX (fun x g =>
           for16 fuel minY maxY (fun y g => Some (mark (mkCoord x y) g)) g) g)
        rng
  | 5 =>
      let radius := 3 in
      let margin := uint32 (radius * 4) in
      let centers := replicate numIslands (mkCoord 0 0) in
      match placementLoop margin fuel false centers rng with
      | None => OutOfFuel
      | Some (centers, rng) =>
          Returned
            (foldl (fun g idx =>
                      let g := barrierCenters_push_back (centers !!! idx) g in
                      visit (centers !!! idx) radius g)
                   g (seq 0 numIslands))
            rng
      end
  | 6 =>
      let numberOfLocations := 5 in
      let radius := 5 in
      let verticalSliceSize := uint32 (sizeY p) ÷ uint32 (numberOfLocations + 1) in
      Returned
        (foldl (fun g n =>
                  let loc := mkCoord (int16 (sizeX p ÷ 2))
                                     (int16 (uint32 (n * verticalSliceSize))) in
                  let g := visit loc radius g in
                  barrierCenters_push_back loc g)
               g (seqZ 1 numberOfLocations))
        rng
  | _ => AssertionFailed g rng
  end.
End CreateBarrier.

(** ** Reference collaborators

    Concrete collaborators, used to run [createBarrier] on examples. *)

(** A scripted random source: the state is the list of raw draws still to
    come, each reduced into the requested range; an exhausted script
    returns the lower end. *)
Definition scriptedUint (lo hi : Z) (s : list Z) : Z * list Z :=
  match s with
  | [] => (lo, [])
  | d :: s' => (lo + d `mod` (hi - lo + 1), s')
  end.

(** The two fixed orders of evaluation: x before y at every call, and y
    before x at every call. *)
Definition leftToRight : list Z -> bool := fun _ => true.
Definition rightToLeft : list Z -> bool := fun _ => false.

(** Modelled from the spec: the neighbourhood visitor (defined outside
    createBarrier.cpp) "enumerates all grid cells within that radius" of
    the centre; here column by column. *)
Definition discCells (p : Params) (loc : Coord) (radius : Z) : list Coord :=
  filter (fun c =>
            0 <= coordX c < sizeX p /\ 0 <= coordY c < sizeY p /\
            (coordX c - coordX loc) * (coordX c - coordX loc)
            + (coordY c - coordY loc) * (coordY c - coordY loc)
            <= radius * radius)
    (x ← seqZ (coordX loc - radius) (2 * radius + 1);
     y ← seqZ (coordY loc - radius) (2 * radius + 1);
     [mkCoord x y]).

(** ** Specification vocabulary *)

(** The cells of the rectangle [minX..maxX] x [minY..maxY], bounds
    included, in the order in which the nested loops reach them. *)
Definition box (minX minY maxX maxY : Z) : list Coord :=
  x ← seqZ minX (maxX + 1 - minX);
  mkCoord x <$> seqZ minY (maxY + 1 - minY).

(** Marking the cells of a list one after the other. *)
Definition stamp (cells : list Coord) (g : Grid) : Grid :=
  foldl (fun g c => mark c g) g cells.

(** The grid after a call that marked [cells], in this order, and recorded
    [centers], when the call started on [g]. *)
Definition marked (g : Grid) (cells centers : list Coord) : Grid :=
  {| data := foldl (fun m c => <[c := BARRIER]> m) (data g) cells;
     barrierLocations := cells;
     barrierCenters := centers;
     setLog := setLog g ++ map (fun c => (c, BARRIER)) cells |}.

Definition inGrid (p : Params) (c : Coord) : Prop :=
  0 <= coordX c < sizeX p /\ 0 <= coordY c < sizeY p.

(** Dimensions below the largest [int16_t]: every coordinate of the grid,
    and every inclusive loop bound up to the size itself, is an [int16_t]
    that can still be incremented. *)
Definition dims16 (p : Params) : Prop :=
  0 <= sizeX p < INT16_MAX /\ 0 <= sizeY p < INT16_MAX.

(** Fuel that outlasts every loop over a row or a column of the grid. *)
Definition enoughFuel (p : Params) (fuel : nat) : Prop :=
  (Z.to_nat (sizeX p) + Z.to_nat (sizeY p) + 4 <= fuel)%nat.

(** The random source keeps to the inclusive range it is asked for. *)
Definition inclusive (R : Type) {rand : RandomSource R} : Prop :=
  forall lo hi (rng : R), lo <= hi -> lo <= (randomUint lo hi rng).1 <= hi.

(** The visitor, started inside the grid, reaches cells of the grid only. *)
Definition staysInGrid {visitor : NeighborhoodVisitor} : Prop :=
  forall p loc radius c,
    inGrid p loc -> c ∈ visitNeighborhood p loc radius -> inGrid p c.

(** ** The geometry of each barrier type, as the code computes it *)

Definition cells1 (p : Params) : list Coord :=
  let minX := int16 (sizeX p ÷ 2) in
  let maxX := int16 (minX + 1) in
  let minY := int16 (sizeY p ÷ 4) in
  let maxY := int16 (minY + sizeY p ÷ 2) in
  box minX minY maxX maxY.

Definition cells2 (p : Params) (midX midY : Z) : list Coord :=
  box (int16 (midX - 1)) (int16 (midY - sizeY p ÷ 4))
      (int16 (midX + 1)) (int16 (midY + sizeY p ÷ 4)).

Definition cells3 (p : Params) : list Coord :=
  let blockSizeX := int16 2 in
  let blockSizeY := int16 (sizeX p ÷ 3) in
  let xa := int16 (sizeX p ÷ 4 - blockSizeX ÷ 2) in
  let ya := int16 (sizeY p ÷ 4 - blockSizeY ÷ 2) in
  let xb := int16 (xa + sizeX p ÷ 2) in
  let yb := int16 (ya + sizeY p ÷ 2) in
  let xd := int16 (xb - sizeX p ÷ 2) in
  let xc := int16 (sizeX p ÷ 2 - blockSizeX ÷ 2) in
  let yc := int16 (sizeY p ÷ 2 - blockSizeY ÷ 2) in
  box xa ya (int16 (xa + blockSizeX)) (int16 (ya + blockSizeY))
  ++ box xb ya (int16 (xb + blockSizeX)) (int16 (ya + blockSizeY))
  ++ box xb yb (int16 (xb + blockSizeX)) (int16 (yb + blockSizeY))
  ++ box xd yb (int16 (xd + blockSizeX)) (int16 (yb + blockSizeY))
  ++ box xc yc (int16 (xc + blockSizeX)) (int16 (yc + blockSizeY)).

(** The five blocks of type 3 when no conversion wraps around. *)
Definition blocks3 (p : Params) : list Coord :=
  let h := sizeX p ÷ 3 in
  let x0 := sizeX p ÷ 4 - 1 in
  let y0 := sizeY p ÷ 4 - h ÷ 2 in
  box x0 y0 (x0 + 2) (y0 + h)
  ++ box (x0 + sizeX p ÷ 2) y0 (x0 + sizeX p ÷ 2 + 2) (y0 + h)
  ++ box (x0 + sizeX p ÷ 2) (y0 + sizeY p ÷ 2)
         (x0 + sizeX p ÷ 2 + 2) (y0 + sizeY p ÷ 2 + h)
  ++ box x0 (y0 + sizeY p ÷ 2) (x0 + 2) (y0 + sizeY p ÷ 2 + h)
  ++ box (sizeX p ÷ 2 - 1) (sizeY p ÷ 2 - h ÷ 2)
         (sizeX p ÷ 2 + 1) (sizeY p ÷ 2 - h ÷ 2 + h).

Definition cells4 (p : Params) : list Coord :=
  let minX := int16 (sizeX p ÷ 4) in
  let maxX := int16 (minX + sizeX p ÷ 2) in
  let minY := int16 (sizeY p ÷ 2 + sizeY p ÷ 4) in
  let maxY := int16 (minY + 2) in
  box minX minY maxX maxY.

Definition centers6 (p : Params) : list Coord :=
  (fun n => mkCoord (int16 (sizeX p ÷ 2))
                    (int16 (uint32 (n * (uint32 (sizeY p) ÷ uint32 (5 + 1))))))
  <$> seqZ 1 5.

(** The cells that the visitor reaches from each centre in turn. *)
Definition spots {visitor : NeighborhoodVisitor} (p : Params) (radius : Z)
    (centers : list Coord) : list Coord :=
  c ← centers; visitNeighborhood p c radius.

(** Every two centres are at Euclidean distance [margin] or more. *)
Definition separated (margin : Z) (centers : list Coord) : Prop :=
  forall a b ca cb, (a < b)%nat ->
    centers !! a = Some ca -> centers !! b = Some cb ->
    margin * margin
    <= (coordX ca - coordX cb) * (coordX ca - coordX cb)
       + (coordY ca - coordY cb) * (coordY ca - coordY cb).

Definition coord16 (c : Coord) : Prop :=
  INT16_MIN <= coordX c <= INT16_MAX /\ INT16_MIN <= coordY c <= INT16_MAX.

(** Dimensions that hold the fixed proportions of a barrier type. *)
Definition fits (t : Z) (p : Params) : Prop :=
  match t with
  | 1 => 3 <= sizeX p /\ 1 <= sizeY p
  | 3 => 5 <= sizeX p /\
         (sizeX p ÷ 3) ÷ 2 <= sizeY p ÷ 4 /\
         sizeY p ÷ 4 - (sizeX p ÷ 3) ÷ 2 + sizeY p ÷ 2 + sizeX p ÷ 3 < sizeY p
  | 4 => 1 <= sizeX p /\ 9 <= sizeY p
  | 5 => 24 <= sizeX p /\ 24 <= sizeY p
  | 6 => 1 <= sizeX p /\ 1 <= sizeY p
  | _ => True
  end.

(** A centre that one pass of the sampling loop of type 5 can draw. *)
Definition drawable (p : Params) (c : Coord) : Prop :=
  exists rx ry,
    12 <= rx <= uint32 (sizeX p - 12) /\ 12 <= ry <= uint32 (sizeY p - 12) /\
    c = mkCoord (int16 rx) (int16 ry).


Definition emptyGrid : Grid :=
  {| data := ∅; barrierLocations := []; barrierCenters := []; setLog := [] |}.

(** Sequential composition of a loop body over a list of counter values. *)
Fixpoint iterM {S : Type} (body : Z -> S -> option S) (l : list Z) (s : S)
    : option S :=
  match l with
  | [] => Some s
  | x :: l => match body x s with Some s' => iterM body l s' | None => None end
  end.

(** ** Example runs *)

(** [createBarrier] with the reference collaborators. *)
Definition createBarrierRef (p : Params) (fuel : nat) (barrierType : Z)
    (script : list Z) (g : Grid) : outcome (list Z) :=
  createBarrier (rand := scriptedUint) (visitor := discCells)
    (order := leftToRight) p fuel barrierType script g.

Definition grid100 : Params := mkParams 100 100.

(** Raw draws that place twelve islands in two rows on [grid100]. *)
Definition islandScript : list Z :=
  [0; 0; 12; 0; 24; 0; 36; 0; 48; 0; 60; 0; 72; 0;
   0; 12; 12; 12; 24; 12; 36; 12; 48; 12].

Definition islandCenters : list Coord :=
  [mkCoord 12 12; mkCoord 24 12; mkCoord 36 12; mkCoord 48 12;
   mkCoord 60 12; mkCoord 72 12; mkCoord 84 12;
   mkCoord 12 24; mkCoord 24 24; mkCoord 36 24; mkCoord 48 24;
   mkCoord 60 24].

Definition islandGrid : Grid :=
  marked emptyGrid (spots (visitor := discCells) grid100 3 islandCenters)
    islandCenters.

(** ** Further vocabulary *)

(** The number of clusters of a barrier type, one centre each. *)
Definition clusters (t : Z) : nat :=
  match t with
  | 2 => 1
  | 5 => 12
  | 6 => 5
  | _ => 0
  end.

(** Two grids that went through the same marking, one started on [g], the
    other on [h]. *)
Definition rebased (g h a b : Grid) : Prop :=
  exists cells centers, a = marked g cells centers /\ b = marked h cells centers.

(** Two ways for a call to end alike on the grids [g] and [h]. *)
Definition alike {R : Type} (g h : Grid) (o1 o2 : outcome R) : Prop :=
  match o1, o2 with
  | Returned a r1, Returned b r2 => rebased g h a b /\ r1 = r2
  | AssertionFailed a r1, AssertionFailed b r2 => rebased g h a b /\ r1 = r2
  | OutOfFuel, OutOfFuel => True
  | _, _ => False
  end.

(** A grid with an occupant at (0,0) and with records left by an earlier
    call. *)
Definition populatedGrid : Grid :=
  {| data := {[ mkCoord 0 0 := OCCUPANT 7 ]};
     barrierLocations := [mkCoord 9 9; mkCoord 9 10];
     barrierCenters := [mkCoord 9 9];
     setLog := [] |}.

Definition smallGrid : Params := mkParams 24 16.

(** ** Machine integers: lemmas *)

Lemma int16_range z : INT16_MIN <= int16 z <= INT16_MAX.
Proof. unfold int16, INT16_MIN, INT16_MAX. lia. Qed.

Lemma int16_id z : INT16_MIN <= z <= INT16_MAX -> int16 z = z.
Proof. unfold int16, INT16_MIN, INT16_MAX. lia. Qed.

Lemma uint32_id z : 0 <= z < 4294967296 -> uint32 z = z.
Proof. unfold uint32. lia. Qed.

Lemma int16_uint32 z : int16 (uint32 z) = int16 z.
Proof. unfold int16, uint32. lia. Qed.

(** ** Loops: lemmas *)

Lemma for16_top {S : Type} fuel x (body : Z -> S -> option S) s :
  x <= INT16_MAX -> for16 fuel x INT16_MAX body s = None.
Proof.
  revert x s. induction fuel as [|n IH]; intros x s Hx; [done|].
  simpl. rewrite (proj2 (Z.leb_le _ _) Hx).
  destruct (body x s); [|done].
  apply IH, int16_range.
Qed.

Lemma for16_Some {S : Type} fuel lo hi (body : Z -> S -> option S) s s' :
  INT16_MIN <= lo <= INT16_MAX -> hi <= INT16_MAX ->
  for16 fuel lo hi body s = Some s' ->
  iterM body (seqZ lo (hi + 1 - lo)) s = Some s'.
Proof.
  revert lo s. induction fuel as [|n IH]; intros lo s Hlo Hhi; [done|].
  simpl. destruct (Z.leb_spec lo hi) as [Hle|Hgt].
  - rewrite seqZ_cons by lia. simpl.
    destruct (body lo s) as [s1|]; [|done].
    destruct (decide (lo = INT16_MAX)) as [->|Hne].
    + assert (hi = INT16_MAX) as -> by lia.
      rewrite for16_top; [done|apply int16_range].
    + rewrite int16_id by (unfold INT16_MIN, INT16_MAX in *; lia).
      intros Hf. apply IH in Hf; [|unfold INT16_MIN, INT16_MAX in *; lia..].
      rewrite <- Hf. f_equal. f_equal; lia.
  - intros [= ->]. rewrite seqZ_nil by lia. done.
Qed.

Lemma for16_enough {S : Type} fuel lo hi (body : Z -> S -> option S) s :
  INT16_MIN <= lo -> hi < INT16_MAX ->
  (Z.to_nat (hi + 1 - lo) < fuel)%nat ->
  for16 fuel lo hi body s = iterM body (seqZ lo (hi + 1 - lo)) s.
Proof.
  revert lo s. induction fuel as [|n IH]; intros lo s Hlo Hhi Hfuel; [lia|].
  simpl. destruct (Z.leb_spec lo hi) as [Hle|Hgt].
  - rewrite seqZ_cons by lia. simpl.
    destruct (body lo s) as [s1|]; [|done].
    rewrite int16_id by (unfold INT16_MIN, INT16_MAX in *; lia).
    rewrite IH by lia. f_equal. f_equal; lia.
  - rewrite seqZ_nil by lia. done.
Qed.

(** ** The records after marking *)

Lemma cleared_marked g :
  barrierCenters_clear (barrierLocations_clear g) = marked g [] [].
Proof.
  unfold barrierCenters_clear, barrierLocations_clear, marked. simpl.
  by rewrite app_nil_r.
Qed.

Lemma mark_marked c g cells centers :
  mark c (marked g cells centers) = marked g (cells ++ [c]) centers.
Proof.
  unfold mark, barrierLocations_push_back, grid_set, marked. simpl.
  rewrite foldl_app, map_app, app_assoc. done.
Qed.

Lemma stamp_marked l g cells centers :
  stamp l (marked g cells centers) = marked g (cells ++ l) centers.
Proof.
  revert cells. induction l as [|c l IH]; intros cells; simpl.
  - by rewrite app_nil_r.
  - unfold stamp in *. simpl. rewrite mark_marked, IH.
    by rewrite <- app_assoc.
Qed.

Lemma center_marked c g cells centers :
  barrierCenters_push_back c (marked g cells centers)
  = marked g cells (centers ++ [c]).
Proof. done. Qed.

Lemma stamp_app l1 l2 g : stamp (l1 ++ l2) g = stamp l2 (stamp l1 g).
Proof. unfold stamp. apply foldl_app. Qed.

Lemma visit_stamp {visitor : NeighborhoodVisitor} p loc radius g :
  visit p loc radius g = stamp (visitNeighborhood p loc radius) g.
Proof. done. Qed.

(** A cell that was marked holds [BARRIER], whatever was marked later. *)
Lemma marked_data g cells centers c :
  c ∈ cells -> data (marked g cells centers) !! c = Some BARRIER.
Proof.
  simpl. induction cells as [|c' cells IH] using rev_ind; intros Hc.
  - by apply elem_of_nil in Hc.
  - rewrite foldl_app. simpl.
    destruct (decide (c' = c)) as [->|Hne].
    + apply lookup_insert_eq.
    + rewrite lookup_insert_ne by done. apply IH.
      apply elem_of_app in Hc as [Hc|Hc]; [done|].
      apply list_elem_of_singleton in Hc. congruence.
Qed.

(** A cell that was not marked is as it was. *)
Lemma marked_data_other g cells centers c :
  c ∉ cells -> data (marked g cells centers) !! c = data g !! c.
Proof.
  simpl. induction cells as [|c' cells IH] using rev_ind; intros Hc; [done|].
  rewrite foldl_app. simpl.
  rewrite not_elem_of_app, list_elem_of_singleton in Hc.
  destruct Hc as [Hc Hne].
  rewrite lookup_insert_ne by done. by apply IH.
Qed.

Lemma elem_of_box c minX minY maxX maxY :
  c ∈ box minX minY maxX maxY <->
  minX <= coordX c <= maxX /\ minY <= coordY c <= maxY.
Proof.
  unfold box. rewrite list_elem_of_bind. split.
  - intros (x & Hc & Hx). apply list_elem_of_fmap in Hc as (y & -> & Hy).
    apply elem_of_seqZ in Hx, Hy. simpl. lia.
  - intros [Hx Hy]. exists (coordX c). split.
    + apply list_elem_of_fmap. exists (coordY c). split; [by destruct c|].
      apply elem_of_seqZ. lia.
    + apply elem_of_seqZ. lia.
Qed.

Lemma length_box minX minY maxX maxY :
  minX <= maxX + 1 -> minY <= maxY + 1 ->
  Z.of_nat (length (box minX minY maxX maxY))
  = (maxX + 1 - minX) * (maxY + 1 - minY).
Proof.
  intros Hx Hy. unfold box.
  assert (forall l : list Z,
    Z.of_nat (length (l ≫= fun x => mkCoord x <$> seqZ minY (maxY + 1 - minY)))
    = Z.of_nat (length l) * (maxY + 1 - minY)) as Hlen.
  { induction l as [|x l IH]; [done|].
    rewrite bind_cons, length_app, length_fmap, length_seqZ. simpl length.
    rewrite Nat2Z.inj_add, IH, Z2Nat.id by lia. lia. }
  rewrite Hlen, length_seqZ, Z2Nat.id by lia. done.
Qed.

Lemma NoDup_box minX minY maxX maxY : NoDup (box minX minY maxX maxY).
Proof.
  unfold box. apply NoDup_bind.
  - intros x1 x2 c _ _ (y1 & -> & _)%list_elem_of_fmap
      (y2 & [= <- _] & _)%list_elem_of_fmap. done.
  - intros x _. apply NoDup_fmap_2; [by intros y1 y2 [= ->]|apply NoDup_seqZ].
  - apply NoDup_seqZ.
Qed.

(** ** drawBox *)

Lemma column_Some fuel x minY maxY g g' :
  INT16_MIN <= minY <= INT16_MAX -> maxY <= INT16_MAX ->
  for16 fuel minY maxY (fun y g => Some (mark (mkCoord x y) g)) g = Some g' ->
  g' = stamp (mkCoord x <$> seqZ minY (maxY + 1 - minY)) g.
Proof.
  intros Hlo Hhi Hf. apply for16_Some in Hf; [|done..].
  revert g Hf. generalize (seqZ minY (maxY + 1 - minY)).
  induction l as [|y l IH]; intros g; simpl; [congruence|].
  intros Hf. by apply IH in Hf.
Qed.

Lemma column_enough fuel x minY maxY g :
  INT16_MIN <= minY -> maxY < INT16_MAX ->
  (Z.to_nat (maxY + 1 - minY) < fuel)%nat ->
  for16 fuel minY maxY (fun y g => Some (mark (mkCoord x y) g)) g
  = Some (stamp (mkCoord x <$> seqZ minY (maxY + 1 - minY)) g).
Proof.
  intros Hlo Hhi Hfuel. rewrite for16_enough by done.
  generalize (seqZ minY (maxY + 1 - minY)). intros l. revert g.
  induction l as [|y l IH]; intros g; simpl; [done|]. apply IH.
Qed.

Lemma drawBox_Some fuel minX minY maxX maxY g g' :
  INT16_MIN <= minX <= INT16_MAX -> maxX <= INT16_MAX ->
  INT16_MIN <= minY <= INT16_MAX -> maxY <= INT16_MAX ->
  drawBox fuel minX minY maxX maxY g = Some g' ->
  g' = stamp (box minX minY maxX maxY) g.
Proof.
  intros HminX HmaxX HminY HmaxY Hf. unfold drawBox in Hf.
  apply for16_Some in Hf; [|done..].
  unfold box. revert g Hf. generalize (seqZ minX (maxX + 1 - minX)).
  induction l as [|x l IH]; intros g; simpl; [congruence|].
  destruct (for16 fuel minY maxY _ g) as [g1|] eqn:Hcol; [|done].
  apply column_Some in Hcol; [|done..]. subst g1.
  intros Hf. apply IH in Hf. by rewrite stamp_app.
Qed.

Lemma drawBox_enough fuel minX minY maxX maxY g :
  INT16_MIN <= minX -> maxX < INT16_MAX ->
  INT16_MIN <= minY -> maxY < INT16_MAX ->
  (Z.to_nat (maxX + 1 - minX) < fuel)%nat ->
  (Z.to_nat (maxY + 1 - minY) < fuel)%nat ->
  drawBox fuel minX minY maxX maxY g = Some (stamp (box minX minY maxX maxY) g).
Proof.
  intros HminX HmaxX HminY HmaxY Hfx Hfy. unfold drawBox.
  rewrite for16_enough by done.
  unfold box. generalize (seqZ minX (maxX + 1 - minX)). intros l. revert g.
  induction l as [|x l IH]; intros g; simpl; [done|].
  rewrite column_enough by done. rewrite IH. by rewrite stamp_app.
Qed.

(** ** What each barrier type leaves behind *)

Section Shapes.
Context {R : Type} {rand : RandomSource R} {visitor : NeighborhoodVisitor}
  {order : ArgumentOrder R}.
Variable p : Params.

Lemma finish_Returned (r : option Grid) (rng rng' : R) g' :
  finish r rng = Returned g' rng' -> r = Some g' /\ rng' = rng.
Proof. destruct r; simpl; [|done]. by intros [= -> ->]. Qed.

Lemma drawBox_marked fuel minX minY maxX maxY g cells centers g' :
  drawBox fuel (int16 minX) (int16 minY) (int16 maxX) (int16 maxY)
          (marked g cells centers) = Some g' ->
  g' = marked g
         (cells ++ box (int16 minX) (int16 minY) (int16 maxX) (int16 maxY))
         centers.
Proof.
  intros Hf. apply drawBox_Some in Hf; try apply int16_range.
  by rewrite Hf, stamp_marked.
Qed.

Lemma createBarrier_0 fuel (rng : R) g :
  createBarrier p fuel 0 rng g = Returned (marked g [] []) rng.
Proof. unfold createBarrier. by rewrite cleared_marked. Qed.

Lemma createBarrier_1_Returned fuel (rng rng' : R) g g' :
  createBarrier p fuel 1 rng g = Returned g' rng' ->
  g' = marked g (cells1 p) [] /\ rng' = rng.
Proof.
  unfold createBarrier. rewrite cleared_marked.
  intros [Hf ->]%finish_Returned. split; [|done].
  by apply drawBox_marked in Hf.
Qed.

Lemma createBarrier_2_Returned fuel (rng rng' : R) g g' :
  createBarrier p fuel 2 rng g = Returned g' rng' ->
  exists rx ry rng1,
    randomUint (uint32 (sizeX p ÷ 10)) (uint32 (sizeX p - sizeX p ÷ 10)) rng
      = (rx, rng1) /\
    randomUint (uint32 (sizeY p ÷ 4)) (uint32 (sizeY p - sizeY p ÷ 4)) rng1
      = (ry, rng') /\
    g' = marked g (cells2 p (int16 rx) (int16 ry))
                [mkCoord (int16 rx) (int16 ry)].
Proof.
  unfold createBarrier. rewrite cleared_marked.
  destruct (randomUint _ _ rng) as [rx rng1].
  destruct (randomUint _ _ rng1) as [ry rng2] eqn:Hry.
  rewrite center_marked.
  intros [Hf ->]%finish_Returned. exists rx, ry, rng1.
  split; [done|]. split; [done|].
  by apply drawBox_marked in Hf.
Qed.

Lemma createBarrier_3_Returned fuel (rng rng' : R) g g' :
  createBarrier p fuel 3 rng g = Returned g' rng' ->
  g' = marked g (cells3 p) [] /\ rng' = rng.
Proof.
  unfold createBarrier. rewrite cleared_marked.
  intros [Hf ->]%finish_Returned. split; [|done].
  destruct (drawBox _ _ _ _ _ _) as [g1|] eqn:H1 in Hf; [|done].
  apply drawBox_marked in H1. subst g1. cbn [mbind option_bind] in Hf.
  destruct (drawBox _ _ _ _ _ _) as [g2|] eqn:H2 in Hf; [|done].
  apply drawBox_marked in H2. subst g2. cbn [mbind option_bind] in Hf.
  destruct (drawBox _ _ _ _ _ _) as [g3|] eqn:H3 in Hf; [|done].
  apply drawBox_marked in H3. subst g3. cbn [mbind option_bind] in Hf.
  destruct (drawBox _ _ _ _ _ _) as [g4|] eqn:H4 in Hf; [|done].
  apply drawBox_marked in H4. subst g4. cbn [mbind option_bind] in Hf.
  apply drawBox_marked in Hf. subst g'.
  unfold cells3. by rewrite <- !app_assoc.
Qed.

Lemma createBarrier_4_Returned fuel (rng rng' : R) g g' :
  createBarrier p fuel 4 rng g = Returned g' rng' ->
  g' = marked g (cells4 p) [] /\ rng' = rng.
Proof.
  unfold createBarrier. rewrite cleared_marked.
  intros [Hf ->]%finish_Returned. split; [|done].
  by apply drawBox_marked in Hf.
Qed.
End Shapes.

(** ** Lists read by index, and flags set in loops *)

Lemma fmap_lookup_total_seq {A} `{!Inhabited A} (l : list A) :
  (fun i => l !!! i) <$> seq 0 (length l) = l.
Proof.
  induction l as [|x l IH] using rev_ind; [done|].
  rewrite length_app, Nat.add_1_r, seq_S, fmap_app. simpl. f_equal.
  - rewrite <- IH at 2. apply list_fmap_ext.
    intros i j Hj. apply lookup_seq in Hj as [-> Hj].
    by rewrite lookup_total_app_l.
  - rewrite lookup_total_app_r, Nat.sub_diag by lia. done.
Qed.

Lemma foldl_indices {A B} `{!Inhabited B} (f : A -> B -> A) (l : list B) a :
  foldl (fun a idx => f a (l !!! idx)) a (seq 0 (length l)) = foldl f a l.
Proof. by rewrite <- foldl_fmap, fmap_lookup_total_seq. Qed.

Lemma foldl_flag_true {A} (P : A -> bool) (l : list A) (v : bool) :
  foldl (fun v x => if P x then false else v) v l = true <->
  v = true /\ forall x, x ∈ l -> P x = false.
Proof.
  revert v. induction l as [|x l IH]; intros v; simpl.
  - split; [|tauto]. intros ->. split; [done|]. by intros x Hx%elem_of_nil.
  - rewrite IH. split.
    + intros [Hv Hl]. destruct (P x) eqn:HP; [done|].
      split; [done|]. intros y [->|Hy]%elem_of_cons; auto.
    + intros [-> Hl]. rewrite (Hl x) by (apply elem_of_cons; auto).
      split; [done|]. intros y Hy. apply Hl, elem_of_cons. auto.
Qed.

Lemma foldl_nested_true {A B} (P : A -> B -> bool) (inner : A -> list B)
    (l : list A) (v : bool) :
  foldl (fun v a => foldl (fun v b => if P a b then false else v) v (inner a))
        v l = true <->
  v = true /\ forall a b, a ∈ l -> b ∈ inner a -> P a b = false.
Proof.
  revert v. induction l as [|a l IH]; intros v; simpl.
  - split; [|tauto]. intros ->. split; [done|]. by intros a b Ha%elem_of_nil.
  - rewrite IH, foldl_flag_true. split.
    + intros [[-> Ha] Hl]. split; [done|].
      intros a' b [->|Ha']%elem_of_cons; auto.
    + intros [-> Hl]. split; [split; [done|]|].
      * intros b Hb. apply Hl; [apply elem_of_cons|]; auto.
      * intros a' b Ha' Hb. apply Hl; [apply elem_of_cons|]; auto.
Qed.

(** ** Separation of centres *)

Lemma length_ge_square (c : Coord) m :
  0 <= m -> (Coord_length c <? m) = false ->
  m * m <= coordX c * coordX c + coordY c * coordY c.
Proof.
  intros Hm Hlen. apply Z.ltb_ge in Hlen. unfold Coord_length in Hlen.
  destruct (Z.le_gt_cases (m * m)
              (coordX c * coordX c + coordY c * coordY c)) as [|Hlt]; [done|].
  apply Z.sqrt_lt_square in Hlt; [lia| nia | done].
Qed.

(** The check of the source, on wrapped differences, implies the
    separation of the centres themselves. *)
Lemma check_separates (ca cb : Coord) :
  coord16 ca -> coord16 cb ->
  (Coord_length (Coord_sub ca cb) <? 12) = false ->
  12 * 12 <= (coordX ca - coordX cb) * (coordX ca - coordX cb)
             + (coordY ca - coordY cb) * (coordY ca - coordY cb).
Proof.
  intros [Hax Hay] [Hbx Hby] Hlen.
  destruct (decide (-12 < coordX ca - coordX cb < 12
                    /\ -12 < coordY ca - coordY cb < 12)) as [[Hx Hy]|Hfar].
  - apply length_ge_square in Hlen; [|lia]. unfold Coord_sub in Hlen.
    simpl in Hlen.
    rewrite !int16_id in Hlen by (unfold INT16_MIN, INT16_MAX; lia). done.
  - clear Hlen. generalize dependent (coordX ca - coordX cb).
    generalize dependent (coordY ca - coordY cb). intros dy dx Hfar.
    assert (dx <= -12 \/ 12 <= dx \/ dy <= -12 \/ 12 <= dy)
      as [?|[?|[?|?]]] by lia; nia.
Qed.

(** ** Barrier types 5 and 6 *)

Section IslandFacts.
Context {R : Type} {rand : RandomSource R} {visitor : NeighborhoodVisitor}
  {order : ArgumentOrder R}.
Variable p : Params.

Lemma randomLoc_coord16 margin (rng : R) :
  coord16 (randomLoc p margin rng).1.
Proof.
  unfold randomLoc. destruct (xDrawnFirst rng).
  - destruct (randomUint _ _ rng) as [rx rng1].
    destruct (randomUint _ _ rng1) as [ry rng2].
    split; apply int16_range.
  - destruct (randomUint _ _ rng) as [ry rng1].
    destruct (randomUint _ _ rng1) as [rx rng2].
    split; apply int16_range.
Qed.

(** One pass of the sampling loop writes every index of its list. *)
Lemma resample_indices margin (P : Coord -> Prop) (idxs : list nat)
    (centers : list Coord) (rng : R) :
  (forall rng, P (randomLoc p margin rng).1) ->
  let r := foldl (fun '(centers, rng) idx =>
                    let '(c, rng) := randomLoc p margin rng in
                    (<[idx := c]> centers, rng))
                 (centers, rng) idxs in
  length r.1 = length centers /\
  forall i c, i ∈ idxs -> r.1 !! i = Some c -> P c.
Proof.
  intros HP. induction idxs as [|idx idxs IH] using rev_ind; simpl.
  - split; [done|]. by intros i c Hi%elem_of_nil.
  - rewrite foldl_app. simpl.
    destruct (foldl _ _ idxs) as [centers1 rng1]. simpl in IH.
    destruct IH as [Hlen IH].
    specialize (HP rng1). destruct (randomLoc p margin rng1) as [c1 rng2].
    simpl in *. split; [by rewrite length_insert|].
    intros i c Hi. destruct (decide (idx = i)) as [->|Hne].
    + intros Hl. pose proof (lookup_lt_Some _ _ _ Hl) as Hlt.
      rewrite length_insert in Hlt.
      rewrite list_lookup_insert_eq in Hl by done. congruence.
    + rewrite list_lookup_insert_ne by done.
      apply elem_of_app in Hi as [Hi|Hi%list_elem_of_singleton]; [|done].
      by apply IH.
Qed.

Lemma resample_spec margin (P : Coord -> Prop) centers (rng : R) :
  (forall rng, P (randomLoc p margin rng).1) ->
  length centers = numIslands ->
  length (resample p margin centers rng).1 = numIslands /\
  Forall P (resample p margin centers rng).1.
Proof.
  intros HP Hlen.
  destruct (resample_indices margin P (seq 0 numIslands) centers rng HP)
    as [Hlen' Hall].
  fold (resample p margin centers rng) in Hlen', Hall.
  split; [congruence|]. apply Forall_lookup. intros i c Hc.
  apply (Hall i); [|done]. apply elem_of_seq.
  apply lookup_lt_Some in Hc. lia.
Qed.

Lemma checkPlacement_true margin centers (a b : nat) :
  checkPlacement margin centers = true ->
  (a < b < numIslands)%nat ->
  (Coord_length (Coord_sub (centers !!! a) (centers !!! b)) <? margin) = false.
Proof.
  unfold checkPlacement. intros Hcheck Hab.
  apply (foldl_nested_true
           (fun a b => Coord_length (Coord_sub (centers !!! a) (centers !!! b))
                       <? margin)
           (fun a => seq (a + 1) (numIslands - (a + 1)))) in Hcheck
    as [_ Hcheck].
  apply Hcheck; apply elem_of_seq; unfold numIslands in *; lia.
Qed.

(** The sampling loop is left only with a fresh sample that passed the
    check. *)
Lemma placementLoop_Some margin fuel valid centers (rng : R) centers' rng' :
  length centers = numIslands ->
  placementLoop p margin fuel valid centers rng = Some (centers', rng') ->
  (valid = true /\ centers' = centers /\ rng' = rng) \/
  (exists c0 rng0, length c0 = numIslands /\
     resample p margin c0 rng0 = (centers', rng') /\
     checkPlacement margin centers' = true).
Proof.
  revert valid centers rng.
  induction fuel as [|n IH]; intros valid centers rng Hlen; [done|].
  simpl. destruct valid; simpl.
  - intros [= -> ->]. by left.
  - destruct (resample p margin centers rng) as [c1 rng1] eqn:Hre.
    intros Hloop. right.
    assert (length c1 = numIslands) as Hlen1.
    { destruct (resample_spec margin (fun _ => True) centers rng) as [H1 _];
        [done..|]. by rewrite Hre in H1. }
    apply IH in Hloop as [(Hv & -> & ->)|Hloop]; [|done..].
    by exists centers, rng.
Qed.

Lemma spots_cons radius c (l : list Coord) :
  spots p radius (c :: l) = visitNeighborhood p c radius ++ spots p radius l.
Proof. reflexivity. Qed.

Lemma islands_marked radius (l : list Coord) g cells centers :
  foldl (fun g c => visit p c radius (barrierCenters_push_back c g))
        (marked g cells centers) l
  = marked g (cells ++ spots p radius l) (centers ++ l).
Proof.
  revert cells centers. induction l as [|c l IH]; intros cells centers.
  - simpl. by rewrite !app_nil_r.
  - cbn [foldl]. rewrite center_marked, visit_stamp, stamp_marked, IH.
    rewrite spots_cons, <- !app_assoc. done.
Qed.

Lemma islands_indexed radius (l : list Coord) g cells centers :
  length l = numIslands ->
  foldl (fun g idx =>
           visit p (l !!! idx) radius (barrierCenters_push_back (l !!! idx) g))
        (marked g cells centers) (seq 0 numIslands)
  = marked g (cells ++ spots p radius l) (centers ++ l).
Proof.
  intros <-.
  etrans; [apply (foldl_indices
             (fun g c => visit p c radius (barrierCenters_push_back c g)))|].
  apply islands_marked.
Qed.

Lemma spots_marked radius (l : list Coord) g cells centers :
  foldl (fun g c => barrierCenters_push_back c (visit p c radius g))
        (marked g cells centers) l
  = marked g (cells ++ spots p radius l) (centers ++ l).
Proof.
  revert cells centers. induction l as [|c l IH]; intros cells centers.
  - simpl. by rewrite !app_nil_r.
  - cbn [foldl]. rewrite visit_stamp, stamp_marked, center_marked, IH.
    rewrite spots_cons, <- !app_assoc. done.
Qed.

Lemma createBarrier_5_Returned fuel (rng rng' : R) g g' :
  createBarrier p fuel 5 rng g = Returned g' rng' ->
  exists centers,
    length centers = numIslands /\
    Forall coord16 centers /\
    checkPlacement 12 centers = true /\
    (exists c0 rng0,
       length c0 = numIslands /\ resample p 12 c0 rng0 = (centers, rng')) /\
    g' = marked g (spots p 3 centers) centers.
Proof.
  unfold createBarrier. rewrite cleared_marked.
  change (uint32 (3 * 4)) with 12.
  destruct (placementLoop _ _ _ _ _ _) as [[centers rng1]|] eqn:Hloop; [|done].
  apply placementLoop_Some in Hloop
    as [(? & _)|(c0 & rng0 & Hlen0 & Hre & Hcheck)]; [done| |done].
  destruct (resample_spec 12 coord16 c0 rng0) as [Hlen Hall];
    [apply randomLoc_coord16|done|].
  rewrite Hre in Hlen, Hall. simpl in Hlen, Hall.
  rewrite (islands_indexed 3 centers g [] []) by done.
  intros [= <- <-]. exists centers.
  split; [done|]. split; [done|]. split; [done|].
  split; [by exists c0, rng0|done].
Qed.

Lemma createBarrier_6 fuel (rng : R) g :
  createBarrier p fuel 6 rng g
  = Returned (marked g (spots p 5 (centers6 p)) (centers6 p)) rng.
Proof.
  unfold createBarrier. rewrite cleared_marked. f_equal.
  change (marked g (spots p 5 (centers6 p)) (centers6 p))
    with (marked g ([] ++ spots p 5 (centers6 p)) ([] ++ centers6 p)).
  rewrite <- spots_marked. unfold centers6.
  by rewrite foldl_fmap.
Qed.
End IslandFacts.

(** ** Termination on grids of [int16_t] size *)

Section Termination.
Context {R : Type} {rand : RandomSource R} {visitor : NeighborhoodVisitor}
  {order : ArgumentOrder R}.
Variable p : Params.
Hypothesis Hdims : dims16 p.

Ltac arith :=
  unfold dims16, enoughFuel, INT16_MIN, INT16_MAX in *; lia.

Lemma cells1_dims16 :
  cells1 p = box (sizeX p ÷ 2) (sizeY p ÷ 4)
                 (sizeX p ÷ 2 + 1) (sizeY p ÷ 4 + sizeY p ÷ 2).
Proof.
  unfold cells1.
  rewrite (int16_id (sizeX p ÷ 2)), (int16_id (sizeY p ÷ 4)) by arith.
  rewrite !int16_id by arith. done.
Qed.

Lemma cells4_dims16 :
  cells4 p = box (sizeX p ÷ 4) (sizeY p ÷ 2 + sizeY p ÷ 4)
                 (sizeX p ÷ 4 + sizeX p ÷ 2) (sizeY p ÷ 2 + sizeY p ÷ 4 + 2).
Proof.
  unfold cells4.
  rewrite (int16_id (sizeX p ÷ 4)), (int16_id (sizeY p ÷ 2 + _)) by arith.
  rewrite !int16_id by arith. done.
Qed.

Lemma createBarrier_1_enough fuel (rng : R) g :
  enoughFuel p fuel ->
  createBarrier p fuel 1 rng g = Returned (marked g (cells1 p) []) rng.
Proof.
  intros Hfuel. unfold createBarrier. rewrite cleared_marked.
  match goal with |- finish ?l _ = _ =>
    change l with (drawBox fuel (int16 (sizeX p ÷ 2)) (int16 (sizeY p ÷ 4))
                     (int16 (int16 (sizeX p ÷ 2) + 1))
                     (int16 (int16 (sizeY p ÷ 4) + sizeY p ÷ 2))
                     (marked g [] []))
  end.
  rewrite (int16_id (sizeX p ÷ 2)), (int16_id (sizeY p ÷ 4)) by arith.
  rewrite !int16_id by arith.
  rewrite drawBox_enough by arith. simpl.
  by rewrite stamp_marked, cells1_dims16.
Qed.

Lemma createBarrier_4_enough fuel (rng : R) g :
  enoughFuel p fuel ->
  createBarrier p fuel 4 rng g = Returned (marked g (cells4 p) []) rng.
Proof.
  intros Hfuel. unfold createBarrier. rewrite cleared_marked.
  match goal with |- finish ?l _ = _ =>
    change l with (drawBox fuel (int16 (sizeX p ÷ 4))
                     (int16 (sizeY p ÷ 2 + sizeY p ÷ 4))
                     (int16 (int16 (sizeX p ÷ 4) + sizeX p ÷ 2))
                     (int16 (int16 (sizeY p ÷ 2 + sizeY p ÷ 4) + 2))
                     (marked g [] []))
  end.
  rewrite (int16_id (sizeX p ÷ 4)), (int16_id (sizeY p ÷ 2 + _)) by arith.
  rewrite !int16_id by arith.
  rewrite drawBox_enough by arith. simpl.
  by rewrite stamp_marked, cells4_dims16.
Qed.

Ltac unwrap :=
  repeat match goal with
         | |- context [int16 ?z] => rewrite (int16_id z) by arith
         end.

Lemma cells3_dims16 : cells3 p = blocks3 p.
Proof.
  unfold cells3, blocks3. unwrap. change (2 ÷ 2) with 1.
  repeat (f_equal; try lia).
Qed.

Lemma createBarrier_3_enough fuel (rng : R) g :
  enoughFuel p fuel ->
  createBarrier p fuel 3 rng g = Returned (marked g (cells3 p) []) rng.
Proof.
  intros Hfuel. unfold createBarrier, cells3. rewrite cleared_marked.
  unwrap. change (2 ÷ 2) with 1.
  rewrite drawBox_enough by arith. cbn [mbind option_bind].
  rewrite drawBox_enough by arith. cbn [mbind option_bind].
  rewrite drawBox_enough by arith. cbn [mbind option_bind].
  rewrite drawBox_enough by arith. cbn [mbind option_bind].
  rewrite drawBox_enough by arith. cbn [finish].
  rewrite !stamp_marked. by rewrite <- !app_assoc.
Qed.

Hypothesis Hrand : inclusive R.

Lemma createBarrier_2_enough fuel (rng : R) g :
  enoughFuel p fuel ->
  exists g' rng', createBarrier p fuel 2 rng g = Returned g' rng'.
Proof.
  intros Hfuel. unfold createBarrier. rewrite cleared_marked.
  pose proof (Hrand (uint32 (sizeX p ÷ 10))
                (uint32 (sizeX p - sizeX p ÷ 10)) rng) as Hx.
  destruct (randomUint _ _ rng) as [rx rng1].
  pose proof (Hrand (uint32 (sizeY p ÷ 4))
                (uint32 (sizeY p - sizeY p ÷ 4)) rng1) as Hy.
  destruct (randomUint _ _ rng1) as [ry rng2].
  rewrite !uint32_id in Hx, Hy by arith. simpl in Hx, Hy.
  rewrite center_marked.
  match goal with |- context [finish ?l _] =>
    change l with (drawBox fuel (int16 (int16 rx - 1))
                     (int16 (int16 ry - sizeY p ÷ 4))
                     (int16 (int16 rx + 1))
                     (int16 (int16 ry + sizeY p ÷ 4))
                     (marked g [] ([] ++ [mkCoord (int16 rx) (int16 ry)])))
  end.
  rewrite (int16_id rx), (int16_id ry) by arith.
  rewrite !int16_id by arith.
  rewrite drawBox_enough by arith. simpl. eauto.
Qed.
End Termination.

(** Beyond the sizes of [dims16] a loop counter can wrap around: with
    [sizeX = 65532] the column counter of type 1 runs from 32766 to 32767,
    the largest [int16_t], and its loop never ends. *)
Example counter_wraps_beyond_dims16 {R : Type} {rand : RandomSource R}
    {visitor : NeighborhoodVisitor} {order : ArgumentOrder R} fuel (rng : R) g :
  createBarrier (mkParams 65532 100) fuel 1 rng g = OutOfFuel.
Proof.
  unfold createBarrier.
  change (int16 (int16 (sizeX (mkParams 65532 100) ÷ 2) + 1))
    with INT16_MAX.
  rewrite for16_top; [done|apply int16_range].
Qed.

(** ** Every barrier type at once *)

Section Dispatch.
Context {R : Type} {rand : RandomSource R} {visitor : NeighborhoodVisitor}
  {order : ArgumentOrder R}.
Variable p : Params.

Lemma selector_cases (t : Z) :
    0 <= t <= 6 -> t = 0 \/ t = 1 \/ t = 2 \/ t = 3 \/ t = 4 \/ t = 5 \/ t = 6.
  Proof. lia. Qed.

Lemma createBarrier_Returned_marked fuel t (rng rng' : R) g g' :
    0 <= t <= 6 ->
    createBarrier p fuel t rng g = Returned g' rng' ->
    exists cells centers, g' = marked g cells centers.
  Proof.
    intros Ht Hrun.
    destruct (selector_cases t Ht) as [->|[->|[->|[->|[->|[->| ->]]]]]].
    - rewrite createBarrier_0 in Hrun. injection Hrun as <- _. eauto.
    - apply createBarrier_1_Returned in Hrun as [-> _]. eauto.
    - apply createBarrier_2_Returned in Hrun as (rx & ry & ? & _ & _ & ->). eauto.
    - apply createBarrier_3_Returned in Hrun as [-> _]. eauto.
    - apply createBarrier_4_Returned in Hrun as [-> _]. eauto.
    - apply createBarrier_5_Returned in Hrun as (cs & _ & _ & _ & _ & ->). eauto.
    - rewrite createBarrier_6 in Hrun. injection Hrun as <- _. eauto.
  Qed.

Lemma createBarrier_default fuel t (rng : R) g :
    ~ 0 <= t <= 6 ->
    createBarrier p fuel t rng g = AssertionFailed (marked g [] []) rng.
  Proof.
    intros Ht. unfold createBarrier. rewrite cleared_marked.
    destruct t as [|q|q]; [lia| |done].
    do 3 (destruct q as [q|q|]; try lia; try done).
  Qed.
Lemma finish_not_failed (r : option Grid) (rng rng' : R) g' :
  finish r rng <> AssertionFailed g' rng'.
Proof. by destruct r. Qed.

Lemma createBarrier_not_failed fuel t (rng rng' : R) g g' :
  0 <= t <= 6 -> createBarrier p fuel t rng g <> AssertionFailed g' rng'.
Proof.
  intros Ht.
  destruct (selector_cases t Ht) as [->|[->|[->|[->|[->|[->| ->]]]]]].
  - by rewrite createBarrier_0.
  - apply finish_not_failed.
  - unfold createBarrier.
    destruct (randomUint _ _ rng) as [rx rng1].
    destruct (randomUint _ _ rng1) as [ry rng2].
    apply finish_not_failed.
  - apply finish_not_failed.
  - apply finish_not_failed.
  - unfold createBarrier.
    by destruct (placementLoop _ _ _ _ _ _) as [[centers rng1]|].
  - by rewrite createBarrier_6.
Qed.

End Dispatch.

(** ** Coordinates inside the grid *)

Section InGrid.
Context {R : Type} {rand : RandomSource R} {visitor : NeighborhoodVisitor}
  {order : ArgumentOrder R}.
Variable p : Params.
Hypothesis Hdims : dims16 p.

Ltac arith :=
  unfold dims16, fits, inGrid, INT16_MIN, INT16_MAX in *; simpl in *; lia.

Lemma cells1_inGrid c : fits 1 p -> c ∈ cells1 p -> inGrid p c.
Proof.
  intros Hfit. rewrite cells1_dims16 by done. intros Hc%elem_of_box. arith.
Qed.

Lemma cells3_inGrid c : fits 3 p -> c ∈ cells3 p -> inGrid p c.
Proof.
  intros Hfit. rewrite cells3_dims16 by done. unfold blocks3.
  rewrite !elem_of_app, !elem_of_box. arith.
Qed.

Lemma cells4_inGrid c : fits 4 p -> c ∈ cells4 p -> inGrid p c.
Proof.
  intros Hfit. rewrite cells4_dims16 by done. intros Hc%elem_of_box. arith.
Qed.

Lemma spots_inGrid radius centers c :
  staysInGrid -> Forall (inGrid p) centers ->
  c ∈ spots p radius centers -> inGrid p c.
Proof.
  intros Hstay Hall (center & Hc & Hcenter)%list_elem_of_bind.
  apply (Hstay p center radius c); [|done].
  by apply (proj1 (Forall_forall _ _) Hall).
Qed.

Lemma randomLoc_inGrid (rng : R) :
  inclusive R -> fits 5 p -> inGrid p (randomLoc p 12 rng).1.
Proof.
  intros Hrand Hfit. unfold randomLoc. destruct (xDrawnFirst rng).
  - pose proof (Hrand 12 (uint32 (sizeX p - 12)) rng) as Hx.
    destruct (randomUint _ _ rng) as [rx rng1].
    pose proof (Hrand 12 (uint32 (sizeY p - 12)) rng1) as Hy.
    destruct (randomUint _ _ rng1) as [ry rng2].
    rewrite !uint32_id in Hx, Hy by arith. simpl in Hx, Hy.
    unfold inGrid. simpl. rewrite !int16_id by arith. arith.
  - pose proof (Hrand 12 (uint32 (sizeY p - 12)) rng) as Hy.
    destruct (randomUint _ _ rng) as [ry rng1].
    pose proof (Hrand 12 (uint32 (sizeX p - 12)) rng1) as Hx.
    destruct (randomUint _ _ rng1) as [rx rng2].
    rewrite !uint32_id in Hx, Hy by arith. simpl in Hx, Hy.
    unfold inGrid. simpl. rewrite !int16_id by arith. arith.
Qed.

Lemma centers6_dims16 :
  centers6 p
  = (fun n => mkCoord (sizeX p ÷ 2) (n * (sizeY p ÷ 6))) <$> seqZ 1 5.
Proof.
  unfold centers6. change (seqZ 1 5) with [1; 2; 3; 4; 5].
  change (uint32 (5 + 1)) with 6. rewrite (uint32_id (sizeY p)) by arith.
  cbn [fmap list_fmap]. rewrite !int16_uint32.
  rewrite !int16_id by arith. done.
Qed.

Lemma centers6_inGrid : fits 6 p -> Forall (inGrid p) (centers6 p).
Proof.
  intros Hfit. rewrite centers6_dims16.
  change (seqZ 1 5) with [1; 2; 3; 4; 5]. cbn [fmap list_fmap].
  repeat constructor; simpl; arith.
Qed.
End InGrid.

(** ** The sampling loop of type 5 *)

Section Sampling.
Context {R : Type} {rand : RandomSource R} {visitor : NeighborhoodVisitor}
  {order : ArgumentOrder R}.
Variable p : Params.

Lemma checked_separated centers :
  length centers = numIslands -> Forall coord16 centers ->
  checkPlacement 12 centers = true -> separated 12 centers.
Proof.
  intros Hlen Hall Hcheck a b ca cb Hab Ha Hb.
  pose proof (lookup_lt_Some _ _ _ Hb) as Hlt.
  pose proof (checkPlacement_true 12 centers a b Hcheck) as Hfar.
  rewrite (list_lookup_total_correct _ _ _ Ha) in Hfar.
  rewrite (list_lookup_total_correct _ _ _ Hb) in Hfar.
  apply check_separates.
  - by apply (proj1 (Forall_lookup _ _) Hall a).
  - by apply (proj1 (Forall_lookup _ _) Hall b).
  - apply Hfar. lia.
Qed.

Lemma drawable_coord16 c : drawable p c -> coord16 c.
Proof. intros (rx & ry & _ & _ & ->). split; apply int16_range. Qed.



End Sampling.


(** ** The reference collaborators keep their contracts *)

Lemma scripted_inclusive : inclusive (rand := scriptedUint) (list Z).
Proof.
  intros lo hi [|d script] Hle; unfold randomUint, scriptedUint; simpl; lia.
Qed.

Lemma disc_staysInGrid : staysInGrid (visitor := discCells).
Proof.
  intros p loc radius c _ Hc. unfold visitNeighborhood, discCells in Hc.
  apply list_elem_of_filter in Hc as [(Hx & Hy & _) _]. by split.
Qed.

(** * The barrier records *)

(** C1: for every barrier type 0..6, when [createBarrier] returns, the
    calls of [grid.set] made during the call are, element for element and
    in order, the entries of [barrierLocations], each with value [BARRIER]:
    a cell written twice is recorded twice and nothing else is recorded. *)
Theorem locations_are_the_set_calls {R : Type} {rand : RandomSource R}
    {visitor : NeighborhoodVisitor} {order : ArgumentOrder R} p fuel t (rng rng' : R) g g' :
  0 <= t <= 6 ->
  createBarrier p fuel t rng g = Returned g' rng' ->
  setLog g' = setLog g ++ map (fun c => (c, BARRIER)) (barrierLocations g').
Proof.
  intros Ht Hrun.
  apply createBarrier_Returned_marked in Hrun as (cells & centers & ->);
    done.
Qed.

Lemma locations_are_the_set_calls_witness :
  setLog (marked emptyGrid (cells3 (mkParams 6 6)) [])
  = setLog emptyGrid
    ++ map (fun c => (c, BARRIER))
         (barrierLocations (marked emptyGrid (cells3 (mkParams 6 6)) [])).
Proof.
  apply (locations_are_the_set_calls (rand := scriptedUint)
           (visitor := discCells) (order := leftToRight) (mkParams 6 6) 20 3 [] []); [lia|].
  change (createBarrierRef (mkParams 6 6) 20 3 [] emptyGrid
          = Returned (marked emptyGrid (cells3 (mkParams 6 6)) []) []).
  vm_compute. reflexivity.
Defined.

(** On a 6 x 6 grid the blocks of type 3 overlap: the cell (2,2) is written
    by the first and by the last block, and is recorded twice. *)
Example overlapping_blocks_recorded_twice :
  length (filter (fun c => c = mkCoord 2 2)
            (barrierLocations (marked emptyGrid (cells3 (mkParams 6 6)) [])))
  = 2%nat.
Proof. vm_compute. reflexivity. Qed.

(** C2, as stated, fails: on a 2 x 2 grid barrier type 1 returns with the
    coordinate (2,0) in [barrierLocations], outside [0,2) x [0,2). *)
Lemma small_grid_leaves_range :
  exists g',
    createBarrierRef (mkParams 2 2) 10 1 [] emptyGrid = Returned g' [] /\
    mkCoord 2 0 ∈ barrierLocations g' /\
    ~ inGrid (mkParams 2 2) (mkCoord 2 0).
Proof.
  exists (marked emptyGrid (cells1 (mkParams 2 2)) []).
  split; [vm_compute; reflexivity|]. split.
  - apply elem_of_box. vm_compute. intuition discriminate.
  - unfold inGrid. simpl. lia.
Qed.

(** C2, amended: when [createBarrier] returns, for every barrier type 0..6
    the grid cell at every coordinate of [barrierLocations] holds
    [BARRIER]; and for the types 0, 1, 3, 4, 5 and 6, on a grid whose
    dimensions hold the proportions of the type ([fits]), with a random
    source that keeps to its range and a visitor that stays in the grid,
    every coordinate of [barrierLocations] lies in [0,sizeX) x [0,sizeY).
    Nothing is clamped: the coordinates are those of the geometry. *)
Theorem locations_in_grid {R : Type} {rand : RandomSource R}
    {visitor : NeighborhoodVisitor} {order : ArgumentOrder R} p fuel t (rng rng' : R) g g' :
  0 <= t <= 6 ->
  createBarrier p fuel t rng g = Returned g' rng' ->
  (forall c, c ∈ barrierLocations g' -> data g' !! c = Some BARRIER) /\
  (t <> 2 -> dims16 p -> fits t p -> inclusive R -> staysInGrid ->
   forall c, c ∈ barrierLocations g' -> inGrid p c).
Proof.
  intros Ht Hrun. split.
  - apply createBarrier_Returned_marked in Hrun as (cells & centers & ->);
      [|done].
    intros c Hc. by apply marked_data.
  - intros Hne Hdims Hfit Hrand Hstay c.
    destruct (selector_cases t Ht) as [->|[->|[->|[->|[->|[->| ->]]]]]].
    + rewrite createBarrier_0 in Hrun. injection Hrun as <- _.
      by intros Hc%elem_of_nil.
    + apply createBarrier_1_Returned in Hrun as [-> _].
      by apply cells1_inGrid.
    + done.
    + apply createBarrier_3_Returned in Hrun as [-> _].
      by apply cells3_inGrid.
    + apply createBarrier_4_Returned in Hrun as [-> _].
      by apply cells4_inGrid.
    + apply createBarrier_5_Returned in Hrun
        as (cs & _ & _ & _ & (c0 & rng0 & Hlen & Hre) & ->).
      apply spots_inGrid; [done|].
      destruct (resample_spec p 12 (inGrid p) c0 rng0) as [_ Hall];
        [intros; by apply randomLoc_inGrid|done|].
      by rewrite Hre in Hall.
    + rewrite createBarrier_6 in Hrun.
      assert (g' = marked g (spots p 5 (centers6 p)) (centers6 p)) as ->
        by congruence.
      apply spots_inGrid; [done|]. by apply centers6_inGrid.
Qed.

Lemma locations_in_grid_witness :
  Forall (fun c => data islandGrid !! c = Some BARRIER)
    (barrierLocations islandGrid) /\
  Forall (inGrid grid100) (barrierLocations islandGrid).
Proof.
  destruct (locations_in_grid (rand := scriptedUint) (visitor := discCells) (order := leftToRight)
              grid100 100 5 islandScript [] emptyGrid islandGrid)
    as [Hcell Hrange].
  - lia.
  - change (createBarrierRef grid100 100 5 islandScript emptyGrid
            = Returned islandGrid []).
    vm_compute. reflexivity.
  - split; apply Forall_forall; [done|].
    apply Hrange.
    + lia.
    + unfold dims16, INT16_MAX. simpl. lia.
    + simpl. lia.
    + apply scripted_inclusive.
    + apply disc_staysInGrid.
Defined.

(** The random bar of type 2 can reach the row [sizeY]: on [grid100], with
    the largest draw for [midY], the cell (54,100) is marked. *)
Example random_bar_reaches_row_sizeY :
  exists g',
    createBarrierRef grid100 204 2 [45; 50] emptyGrid = Returned g' [] /\
    barrierCenters g' = [mkCoord 55 75] /\
    mkCoord 54 100 ∈ barrierLocations g'.
Proof.
  exists (marked emptyGrid (cells2 grid100 55 75) [mkCoord 55 75]).
  split; [vm_compute; reflexivity|]. split; [done|].
  apply elem_of_box. vm_compute. intuition discriminate.
Qed.

(** * The islands of type 5 *)



(** C4: whenever [createBarrier] returns for type 5, [barrierCenters]
    holds exactly twelve centres, every two of them are at Euclidean
    distance 12 = radius * 4 or more, and the marked cells are those the
    visitor reaches with radius 3 from each centre, one visit per centre,
    in the order of the centres. *)
Theorem islands_are_separated {R : Type} {rand : RandomSource R}
    {visitor : NeighborhoodVisitor} {order : ArgumentOrder R} p fuel (rng rng' : R) g g' :
  createBarrier p fuel 5 rng g = Returned g' rng' ->
  length (barrierCenters g') = 12%nat /\
  separated 12 (barrierCenters g') /\
  barrierLocations g' = spots p 3 (barrierCenters g') /\
  g' = marked g (barrierLocations g') (barrierCenters g').
Proof.
  intros Hrun.
  apply createBarrier_5_Returned in Hrun
    as (cs & Hlen & Hall & Hcheck & _ & ->).
  simpl. split; [done|]. split; [|done].
  by apply checked_separated.
Qed.

Lemma islands_are_separated_witness :
  length (barrierCenters islandGrid) = 12%nat /\
  separated 12 (barrierCenters islandGrid) /\
  barrierLocations islandGrid
  = spots (visitor := discCells) grid100 3 (barrierCenters islandGrid) /\
  islandGrid
  = marked emptyGrid (barrierLocations islandGrid) (barrierCenters islandGrid).
Proof.
  apply (islands_are_separated (rand := scriptedUint) (visitor := discCells) (order := leftToRight)
           grid100 100 islandScript [] emptyGrid islandGrid).
  change (createBarrierRef grid100 100 5 islandScript emptyGrid
          = Returned islandGrid []).
  vm_compute. reflexivity.
Defined.

(** * The fixed shapes *)

(** C5: barrier type 3 on the 100 x 100 grid. The call returns and records
    no centre, but each of its five blocks spans the columns x0..x0+2 and
    the rows y0..y0+33, bounds included: 3 cells by 34, not the 2 by 33 of
    [blockSizeX] and [blockSizeY], and 510 cells in all. *)
Theorem staggered_blocks_on_grid100 {R : Type} {rand : RandomSource R}
    {visitor : NeighborhoodVisitor} {order : ArgumentOrder R} k (rng : R) g :
  createBarrier grid100 (204 + k) 3 rng g
  = Returned
      (marked g
         (box 24 9 26 42 ++ box 74 9 76 42 ++ box 74 59 76 92
          ++ box 24 59 26 92 ++ box 49 34 51 67) [])
      rng /\
  length (box 24 9 26 42) = (3 * 34)%nat /\
  length (box 24 9 26 42 ++ box 74 9 76 42 ++ box 74 59 76 92
          ++ box 24 59 26 92 ++ box 49 34 51 67) = 510%nat.
Proof.
  split; [|by vm_compute].
  rewrite createBarrier_3_enough.
  - rewrite cells3_dims16; [done|]. unfold dims16, INT16_MAX. simpl. lia.
  - unfold dims16, INT16_MAX. simpl. lia.
  - unfold enoughFuel. simpl. lia.
Qed.

(** The blocks of type 3 on every grid of [int16_t] size: [blocks3], with
    blocks of [sizeX / 3 + 1] rows of 3 cells. *)
Lemma type3_blocks {R : Type} {rand : RandomSource R}
    {visitor : NeighborhoodVisitor} {order : ArgumentOrder R} p fuel (rng : R) g :
  dims16 p -> enoughFuel p fuel ->
  createBarrier p fuel 3 rng g = Returned (marked g (blocks3 p) []) rng.
Proof.
  intros Hdims Hfuel. rewrite createBarrier_3_enough by done.
  by rewrite cells3_dims16.
Qed.

(** C6, as stated, fails: on a grid of height 99 the bar of type 4 starts
    at row 99/2 + 99/4 = 73, and the cell (25,73) is marked, while
    3*99/4 = 74; and for 3*(99/4) = 72, the row 72 is not marked. *)
Lemma bar_row_is_not_three_quarters :
  exists g',
    createBarrierRef (mkParams 100 99) 204 4 [] emptyGrid = Returned g' [] /\
    mkCoord 25 73 ∈ barrierLocations g' /\
    ~ ((3 * 99) ÷ 4 <= coordY (mkCoord 25 73) <= (3 * 99) ÷ 4 + 2) /\
    (mkCoord 25 72 ∉ barrierLocations g') /\
    100 ÷ 4 <= coordX (mkCoord 25 72) <= 100 ÷ 4 + 100 ÷ 2 /\
    3 * (99 ÷ 4) <= coordY (mkCoord 25 72) <= 3 * (99 ÷ 4) + 2.
Proof.
  exists (marked emptyGrid (cells4 (mkParams 100 99)) []).
  split; [vm_compute; reflexivity|].
  change (barrierLocations (marked emptyGrid (cells4 (mkParams 100 99)) []))
    with (box 25 73 75 75).
  rewrite !elem_of_box. vm_compute. intuition discriminate.
Qed.

(** C6, amended: on every grid of [int16_t] size barrier type 4 returns,
    records no centre, and marks one horizontal bar of height 3: exactly
    the cells with x in [W/4, W/4 + W/2] and y in [H/2 + H/4, H/2 + H/4 + 2],
    every division truncating. *)
Theorem horizontal_bar {R : Type} {rand : RandomSource R}
    {visitor : NeighborhoodVisitor} {order : ArgumentOrder R} p fuel (rng : R) g :
  dims16 p -> enoughFuel p fuel ->
  exists g',
    createBarrier p fuel 4 rng g = Returned g' rng /\
    barrierLocations g'
    = box (sizeX p ÷ 4) (sizeY p ÷ 2 + sizeY p ÷ 4)
          (sizeX p ÷ 4 + sizeX p ÷ 2) (sizeY p ÷ 2 + sizeY p ÷ 4 + 2) /\
    (forall c, c ∈ barrierLocations g' <->
       sizeX p ÷ 4 <= coordX c <= sizeX p ÷ 4 + sizeX p ÷ 2 /\
       sizeY p ÷ 2 + sizeY p ÷ 4 <= coordY c <= sizeY p ÷ 2 + sizeY p ÷ 4 + 2) /\
    NoDup (barrierLocations g') /\
    Z.of_nat (length (barrierLocations g')) = (sizeX p ÷ 2 + 1) * 3 /\
    barrierCenters g' = [] /\
    g' = marked g (barrierLocations g') [].
Proof.
  intros Hdims Hfuel. exists (marked g (cells4 p) []).
  split; [by apply createBarrier_4_enough|].
  simpl. rewrite cells4_dims16 by done.
  split; [done|]. split; [intros c; apply elem_of_box|].
  split; [apply NoDup_box|]. split; [|done].
  rewrite length_box; unfold dims16 in Hdims; lia.
Qed.

Lemma horizontal_bar_witness :
  exists g',
    createBarrierRef grid100 204 4 [] emptyGrid = Returned g' [] /\
    barrierLocations g' = box 25 75 75 77 /\
    length (barrierLocations g') = (51 * 3)%nat.
Proof.
  destruct (horizontal_bar (rand := scriptedUint) (visitor := discCells) (order := leftToRight)
              grid100 204 [] emptyGrid)
    as (g' & Hrun & Hcells & _).
  - unfold dims16, INT16_MAX. simpl. lia.
  - unfold enoughFuel. simpl. lia.
  - exists g'. split; [done|]. rewrite Hcells. split; reflexivity.
Defined.

(** C9: barrier type 1 on the 100 x 100 grid returns with exactly
    2 * 51 = 102 entries in [barrierLocations], the cells with x in
    {50, 51} and y in [25, 75], each once, and with no centre. *)
Theorem vertical_bar_on_grid100 {R : Type} {rand : RandomSource R}
    {visitor : NeighborhoodVisitor} {order : ArgumentOrder R} fuel (rng : R) g :
  enoughFuel grid100 fuel ->
  exists g',
    createBarrier grid100 fuel 1 rng g = Returned g' rng /\
    length (barrierLocations g') = (2 * 51)%nat /\
    (forall c, c ∈ barrierLocations g' <->
       (coordX c = 50 \/ coordX c = 51) /\ 25 <= coordY c <= 75) /\
    NoDup (barrierLocations g') /\
    barrierLocations g' = box 50 25 51 75 /\
    barrierCenters g' = [].
Proof.
  intros Hfuel. exists (marked g (box 50 25 51 75) []).
  split.
  - rewrite createBarrier_1_enough; [done| |done].
    unfold dims16, INT16_MAX. simpl. lia.
  - split; [by vm_compute|]. simpl.
    split; [intros c; rewrite elem_of_box; lia|].
    split; [apply NoDup_box|done].
Qed.

Lemma vertical_bar_on_grid100_witness :
  exists g',
    createBarrierRef grid100 204 1 [] emptyGrid = Returned g' [] /\
    length (barrierLocations g') = 102%nat /\
    barrierCenters g' = [].
Proof.
  destruct (vertical_bar_on_grid100 (rand := scriptedUint)
              (visitor := discCells) (order := leftToRight) 204 [] emptyGrid)
    as (g' & Hrun & Hlen & _ & _ & _ & Hcenters).
  - unfold enoughFuel. simpl. lia.
  - exists g'. split; [done|]. split; done.
Defined.

(** * The spots of type 6 *)

(** C8, as stated, fails: on a grid with 60000 rows the slice is 10000 and
    the centres 4 and 5 are recorded at y = -25536 and y = -15536, the
    [int16_t] values of 40000 and 50000, not at 4 * (H/6) and 5 * (H/6). *)
Lemma spots_wrap_on_a_high_grid :
  exists g',
    createBarrierRef (mkParams 100 60000) 0 6 [] emptyGrid = Returned g' [] /\
    barrierCenters g'
    = [mkCoord 50 10000; mkCoord 50 20000; mkCoord 50 30000;
       mkCoord 50 (-25536); mkCoord 50 (-15536)] /\
    4 * (60000 ÷ 6) = 40000 /\ 5 * (60000 ÷ 6) = 50000.
Proof.
  exists (marked emptyGrid
            (spots (visitor := discCells) (mkParams 100 60000) 5
               (centers6 (mkParams 100 60000)))
            (centers6 (mkParams 100 60000))).
  split; [apply createBarrier_6|].
  split; [vm_compute; reflexivity|]. split; reflexivity.
Qed.

(** C8, amended: on every grid of [int16_t] size (0 <= W, H < 32767)
    barrier type 6 returns with exactly five centres, all at x = W/2, at
    y = n * (H/6) for n = 1..5, and marks the cells that the visitor
    reaches with radius 5 from each centre in turn. *)
Theorem spots_down_the_midline {R : Type} {rand : RandomSource R}
    {visitor : NeighborhoodVisitor} {order : ArgumentOrder R} p fuel (rng : R) g :
  dims16 p ->
  exists g',
    createBarrier p fuel 6 rng g = Returned g' rng /\
    length (barrierCenters g') = 5%nat /\
    barrierCenters g'
    = (fun n => mkCoord (sizeX p ÷ 2) (n * (sizeY p ÷ 6))) <$> seqZ 1 5 /\
    barrierLocations g' = spots p 5 (barrierCenters g') /\
    g' = marked g (barrierLocations g') (barrierCenters g').
Proof.
  intros Hdims. exists (marked g (spots p 5 (centers6 p)) (centers6 p)).
  split; [apply createBarrier_6|]. simpl.
  split; [done|]. split; [by apply centers6_dims16|done].
Qed.

Lemma spots_down_the_midline_witness :
  exists g',
    createBarrierRef grid100 0 6 [] emptyGrid = Returned g' [] /\
    barrierCenters g'
    = [mkCoord 50 16; mkCoord 50 32; mkCoord 50 48; mkCoord 50 64;
       mkCoord 50 80].
Proof.
  destruct (spots_down_the_midline (rand := scriptedUint)
              (visitor := discCells) (order := leftToRight) grid100 0 [] emptyGrid)
    as (g' & Hrun & _ & Hcenters & _).
  - unfold dims16, INT16_MAX. simpl. lia.
  - exists g'. split; [done|]. rewrite Hcenters. reflexivity.
Defined.

(** * Unknown barrier types *)

(** C7, as stated, fails: barrier type 1 is not a total function of the
    grid dimensions. With [sizeX = 65532] its column counter runs from
    32766 to 32767, the largest [int16_t], wraps around, and the call never
    returns, whatever the fuel. *)
Lemma vertical_bar_never_returns_at_65532 :
  ~ exists fuel g' rng',
      createBarrierRef (mkParams 65532 100) fuel 1 [] emptyGrid
      = Returned g' rng'.
Proof.
  intros (fuel & g' & rng' & Hrun).
  unfold createBarrierRef, createBarrier in Hrun.
  change (int16 (int16 (sizeX (mkParams 65532 100) ÷ 2) + 1))
    with INT16_MAX in Hrun.
  rewrite for16_top in Hrun; [done|apply int16_range].
Qed.

(** C7, amended: a barrier type outside 0..6 ends [createBarrier] in the
    failed assertion, not in a return; a type in 0..6 never ends in it, and
    every type but 5 returns, given enough fuel, on every grid of
    [int16_t] size (0 <= W, H < 32767) and for every draw of a random
    source that keeps to its range. *)
Theorem only_unknown_types_fail {R : Type} {rand : RandomSource R}
    {visitor : NeighborhoodVisitor} {order : ArgumentOrder R} p fuel t (rng : R) g :
  (~ 0 <= t <= 6 ->
   exists g', createBarrier p fuel t rng g = AssertionFailed g' rng) /\
  (0 <= t <= 6 ->
   (forall g' rng', createBarrier p fuel t rng g <> AssertionFailed g' rng') /\
   (t <> 5 -> dims16 p -> inclusive R -> enoughFuel p fuel ->
    exists g' rng', createBarrier p fuel t rng g = Returned g' rng')).
Proof.
  split.
  - intros Ht. eexists. by apply createBarrier_default.
  - intros Ht. split; [intros g' rng'; by apply createBarrier_not_failed|].
    intros Hne Hdims Hrand Hfuel.
    destruct (selector_cases t Ht) as [->|[->|[->|[->|[->|[->| ->]]]]]].
    + rewrite createBarrier_0. eauto.
    + rewrite createBarrier_1_enough by done. eauto.
    + by apply createBarrier_2_enough.
    + rewrite createBarrier_3_enough by done. eauto.
    + rewrite createBarrier_4_enough by done. eauto.
    + done.
    + rewrite createBarrier_6. eauto.
Qed.

Lemma only_unknown_types_fail_witness :
  (exists g',
     createBarrierRef grid100 204 7 [] emptyGrid = AssertionFailed g' []) /\
  (exists g' rng',
     createBarrierRef grid100 204 2 [45; 50] emptyGrid = Returned g' rng').
Proof.
  split.
  - apply (only_unknown_types_fail (rand := scriptedUint)
             (visitor := discCells) (order := leftToRight) grid100 204 7 [] emptyGrid). lia.
  - apply (only_unknown_types_fail (rand := scriptedUint)
             (visitor := discCells) (order := leftToRight) grid100 204 2 [45; 50] emptyGrid).
    + lia.
    + lia.
    + unfold dims16, INT16_MAX. simpl. lia.
    + apply scripted_inclusive.
    + unfold enoughFuel. simpl. lia.
Defined.

(** C10: both records are cleared before the barrier type is looked at:
    a call on [g] is a call on [g] with both records emptied. So when the
    type is not one of 0..6, the failed assertion is reached with both
    records empty, whatever they held before, and with no cell written. *)
Theorem records_cleared_before_dispatch {R : Type} {rand : RandomSource R}
    {visitor : NeighborhoodVisitor} {order : ArgumentOrder R} p fuel t (rng : R) g :
  createBarrier p fuel t rng g
  = createBarrier p fuel t rng
      (barrierCenters_clear (barrierLocations_clear g)) /\
  (~ 0 <= t <= 6 ->
   exists g',
     createBarrier p fuel t rng g = AssertionFailed g' rng /\
     barrierLocations g' = [] /\ barrierCenters g' = [] /\
     data g' = data g /\ setLog g' = setLog g).
Proof.
  split; [done|]. intros Ht.
  exists (marked g [] []). split; [by apply createBarrier_default|].
  simpl. by rewrite app_nil_r.
Qed.

Lemma records_cleared_before_dispatch_witness :
  exists g',
    createBarrierRef grid100 204 7 [] islandGrid = AssertionFailed g' [] /\
    barrierLocations g' = [] /\ barrierCenters g' = [] /\
    data g' = data islandGrid /\ setLog g' = setLog islandGrid.
Proof.
  destruct (records_cleared_before_dispatch (rand := scriptedUint)
              (visitor := discCells) (order := leftToRight) grid100 204 7 [] islandGrid)
    as [_ Hfail].
  apply Hfail. lia.
Defined.

(** * Further properties of createBarrier *)

(** ** The grid around the marked cells *)

(** X1: after a returning call of a type 0..6 a cell holds [BARRIER] if its
    coordinate is in [barrierLocations], and what it held before the call
    otherwise: no other cell is written, and no other value. *)
Theorem cells_after_the_call {R : Type} {rand : RandomSource R}
    {visitor : NeighborhoodVisitor} {order : ArgumentOrder R} p fuel t (rng rng' : R) g g' :
  0 <= t <= 6 ->
  createBarrier p fuel t rng g = Returned g' rng' ->
  forall c,
    data g' !! c
    = if decide (c ∈ barrierLocations g') then Some BARRIER else data g !! c.
Proof.
  intros Ht Hrun c.
  apply createBarrier_Returned_marked in Hrun as (cells & centers & ->);
    [|done].
  cbn [barrierLocations marked]. case_decide.
  - by apply marked_data.
  - by apply marked_data_other.
Qed.

Lemma cells_after_the_call_witness :
  data (marked populatedGrid (cells4 smallGrid) []) !! mkCoord 0 0
  = Some (OCCUPANT 7) /\
  data (marked populatedGrid (cells4 smallGrid) []) !! mkCoord 6 12
  = Some BARRIER.
Proof.
  pose proof (cells_after_the_call (rand := scriptedUint)
                (visitor := discCells) (order := leftToRight) smallGrid 50 4 [] [] populatedGrid
                (marked populatedGrid (cells4 smallGrid) [])) as Hcells.
  split.
  - rewrite Hcells; [reflexivity|lia|vm_compute; reflexivity].
  - rewrite Hcells; [reflexivity|lia|vm_compute; reflexivity].
Defined.

(** ** The records and the random source *)

(** X3: every returning call records one centre per cluster of its type:
    one for type 2, twelve for type 5, five for type 6, none for the types
    0, 1, 3 and 4; on every grid and for all draws. *)
Theorem one_centre_per_cluster {R : Type} {rand : RandomSource R}
    {visitor : NeighborhoodVisitor} {order : ArgumentOrder R} p fuel t (rng rng' : R) g g' :
  0 <= t <= 6 ->
  createBarrier p fuel t rng g = Returned g' rng' ->
  length (barrierCenters g') = clusters t.
Proof.
  intros Ht Hrun.
  destruct (selector_cases t Ht) as [->|[->|[->|[->|[->|[->| ->]]]]]].
  - rewrite createBarrier_0 in Hrun. by injection Hrun as <- _.
  - by apply createBarrier_1_Returned in Hrun as [-> _].
  - by apply createBarrier_2_Returned in Hrun as (rx & ry & ? & _ & _ & ->).
  - by apply createBarrier_3_Returned in Hrun as [-> _].
  - by apply createBarrier_4_Returned in Hrun as [-> _].
  - by apply createBarrier_5_Returned in Hrun as (cs & Hlen & _ & _ & _ & ->).
  - rewrite createBarrier_6 in Hrun.
    assert (g' = marked g (spots p 5 (centers6 p)) (centers6 p)) as ->
      by congruence.
    done.
Qed.

Lemma one_centre_per_cluster_witness :
  length (barrierCenters (marked emptyGrid (cells2 smallGrid 5 7) [mkCoord 5 7]))
  = 1%nat.
Proof.
  apply (one_centre_per_cluster (rand := scriptedUint) (visitor := discCells) (order := leftToRight)
           smallGrid 50 2 [3; 3] [] emptyGrid); [lia|].
  vm_compute. reflexivity.
Defined.

(** X4: the types with a fixed pattern (0, 1, 3, 4 and 6) draw nothing:
    the random source is handed back in the state it was given in. *)
Theorem fixed_patterns_draw_nothing {R : Type} {rand : RandomSource R}
    {visitor : NeighborhoodVisitor} {order : ArgumentOrder R} p fuel t (rng rng' : R) g g' :
  t = 0 \/ t = 1 \/ t = 3 \/ t = 4 \/ t = 6 ->
  createBarrier p fuel t rng g = Returned g' rng' ->
  rng' = rng.
Proof.
  intros [->|[->|[->|[->| ->]]]] Hrun.
  - rewrite createBarrier_0 in Hrun. by injection Hrun as _ <-.
  - by apply createBarrier_1_Returned in Hrun as [_ ->].
  - by apply createBarrier_3_Returned in Hrun as [_ ->].
  - by apply createBarrier_4_Returned in Hrun as [_ ->].
  - rewrite createBarrier_6 in Hrun. congruence.
Qed.

Lemma fixed_patterns_draw_nothing_witness : [3; 1; 4] = [3; 1; 4].
Proof.
  apply (fixed_patterns_draw_nothing (rand := scriptedUint)
           (visitor := discCells) (order := leftToRight) smallGrid 50 3 [3; 1; 4] [3; 1; 4]
           emptyGrid (marked emptyGrid (cells3 smallGrid) [])).
  - right. right. left. reflexivity.
  - vm_compute. reflexivity.
Defined.

(** ** Calls on different grids *)

Section Rebase.
Context {R : Type} {rand : RandomSource R} {visitor : NeighborhoodVisitor}
  {order : ArgumentOrder R}.
Variable p : Params.
Variables g h : Grid.

Lemma rebased_start : rebased g h (marked g [] []) (marked h [] []).
Proof. by exists [], []. Qed.

Lemma rebased_mark c a b : rebased g h a b -> rebased g h (mark c a) (mark c b).
Proof.
  intros (cells & centers & -> & ->). exists (cells ++ [c]), centers.
  by rewrite !mark_marked.
Qed.

Lemma rebased_center c a b :
  rebased g h a b ->
  rebased g h (barrierCenters_push_back c a) (barrierCenters_push_back c b).
Proof.
  intros (cells & centers & -> & ->). by exists cells, (centers ++ [c]).
Qed.

Lemma rebased_visit loc radius a b :
  rebased g h a b -> rebased g h (visit p loc radius a) (visit p loc radius b).
Proof.
  intros (cells & centers & -> & ->).
  exists (cells ++ visitNeighborhood p loc radius), centers.
  by rewrite !visit_stamp, !stamp_marked.
Qed.

Lemma rebased_foldl {A} (f : Grid -> A -> Grid) (l : list A) a b :
  (forall x a b, rebased g h a b -> rebased g h (f a x) (f b x)) ->
  rebased g h a b -> rebased g h (foldl f a l) (foldl f b l).
Proof.
  intros Hf. revert a b. induction l as [|x l IH]; intros a b Hab; [done|].
  simpl. by apply IH, Hf.
Qed.

Lemma for16_rebased fuel lo hi (body : Z -> Grid -> option Grid) a b :
  (forall x a b, rebased g h a b ->
     option_Forall2 (rebased g h) (body x a) (body x b)) ->
  rebased g h a b ->
  option_Forall2 (rebased g h) (for16 fuel lo hi body a) (for16 fuel lo hi body b).
Proof.
  intros Hbody. revert lo a b.
  induction fuel as [|n IH]; intros lo a b Hab; simpl; [constructor|].
  destruct (lo <=? hi); [|by constructor].
  destruct (Hbody lo a b Hab) as [a' b' Hab'|]; [by apply IH|constructor].
Qed.

Lemma drawBox_rebased fuel minX minY maxX maxY a b :
  rebased g h a b ->
  option_Forall2 (rebased g h) (drawBox fuel minX minY maxX maxY a)
                 (drawBox fuel minX minY maxX maxY b).
Proof.
  intros Hab. unfold drawBox. apply for16_rebased; [|done].
  intros x a' b' Hab'. apply for16_rebased; [|done].
  intros y a'' b'' Hab''. constructor. by apply rebased_mark.
Qed.

Lemma bind_rebased (f1 f2 : Grid -> option Grid) (o1 o2 : option Grid) :
  option_Forall2 (rebased g h) o1 o2 ->
  (forall a b, rebased g h a b -> option_Forall2 (rebased g h) (f1 a) (f2 b)) ->
  option_Forall2 (rebased g h) (o1 ≫= f1) (o2 ≫= f2).
Proof. intros [a b Hab|] Hf; simpl; [by apply Hf|constructor]. Qed.

Lemma finish_alike (o1 o2 : option Grid) (rng : R) :
  option_Forall2 (rebased g h) o1 o2 -> alike g h (finish o1 rng) (finish o2 rng).
Proof. by intros [a b Hab|]. Qed.

(** A call on [h] ends as the call on [g] does, with the same marking. *)
Lemma createBarrier_alike fuel t (rng : R) :
  alike g h (createBarrier p fuel t rng g) (createBarrier p fuel t rng h).
Proof.
  destruct (decide (0 <= t <= 6)) as [Ht|Ht].
  - destruct (selector_cases t Ht) as [->|[->|[->|[->|[->|[->| ->]]]]]];
      unfold createBarrier; rewrite !cleared_marked.
    + split; [apply rebased_start|done].
    + apply finish_alike, (drawBox_rebased fuel), rebased_start.
    + destruct (randomUint _ _ rng) as [rx rng1].
      destruct (randomUint _ _ rng1) as [ry rng2].
      apply finish_alike, (drawBox_rebased fuel), rebased_center, rebased_start.
    + apply finish_alike.
      apply bind_rebased; [apply drawBox_rebased, rebased_start|].
      intros a1 b1 H1.
      apply bind_rebased; [by apply drawBox_rebased|]. intros a2 b2 H2.
      apply bind_rebased; [by apply drawBox_rebased|]. intros a3 b3 H3.
      apply bind_rebased; [by apply drawBox_rebased|]. intros a4 b4 H4.
      by apply drawBox_rebased.
    + apply finish_alike, (drawBox_rebased fuel), rebased_start.
    + destruct (placementLoop _ _ _ _ _ _) as [[centers rng1]|]; [|done].
      split; [|done]. apply rebased_foldl; [|apply rebased_start].
      intros idx a b Hab. by apply rebased_visit, rebased_center.
    + split; [|done]. apply rebased_foldl; [|apply rebased_start].
      intros n a b Hab. by apply rebased_center, rebased_visit.
  - rewrite !createBarrier_default by done. split; [apply rebased_start|done].
Qed.
End Rebase.

(** X2: what a call records does not depend on the grid it is given: if
    the call returns on [g], it returns on every grid [h], with the same
    [barrierLocations], the same [barrierCenters] and the same state of the
    random source, and marks the same cells on [h]. In particular the
    records of an earlier call never show in those of the next one. *)
Theorem records_replace_earlier_ones {R : Type} {rand : RandomSource R}
    {visitor : NeighborhoodVisitor} {order : ArgumentOrder R} p fuel t (rng rng' : R) g g' :
  createBarrier p fuel t rng g = Returned g' rng' ->
  forall h,
    createBarrier p fuel t rng h
    = Returned (marked h (barrierLocations g') (barrierCenters g')) rng'.
Proof.
  intros Hrun h. pose proof (createBarrier_alike p g h fuel t rng) as Hlike.
  rewrite Hrun in Hlike.
  destruct (createBarrier p fuel t rng h) as [b r| |]; [|done..].
  destruct Hlike as [(cells & centers & -> & ->) <-]. done.
Qed.

Lemma records_replace_earlier_ones_witness :
  createBarrierRef smallGrid 50 4 [] populatedGrid
  = Returned (marked populatedGrid (cells4 smallGrid) []) [].
Proof.
  apply (records_replace_earlier_ones (rand := scriptedUint)
           (visitor := discCells) (order := leftToRight) smallGrid 50 4 [] [] emptyGrid
           (marked emptyGrid (cells4 smallGrid) [])).
  vm_compute. reflexivity.
Defined.

(** ** The bars of types 1 and 2 *)

(** X5: on every grid of [int16_t] size barrier type 1 returns with one
    vertical bar, two cells wide: the cells with x in {W/2, W/2 + 1} and y
    in [H/4, H/4 + H/2], each recorded once, 2 * (H/2 + 1) in all, and with
    no centre. *)
Theorem fixed_vertical_bar {R : Type} {rand : RandomSource R}
    {visitor : NeighborhoodVisitor} {order : ArgumentOrder R} p fuel (rng : R) g :
  dims16 p -> enoughFuel p fuel ->
  exists g',
    createBarrier p fuel 1 rng g = Returned g' rng /\
    barrierLocations g'
    = box (sizeX p ÷ 2) (sizeY p ÷ 4) (sizeX p ÷ 2 + 1) (sizeY p ÷ 4 + sizeY p ÷ 2) /\
    (forall c, c ∈ barrierLocations g' <->
       (coordX c = sizeX p ÷ 2 \/ coordX c = sizeX p ÷ 2 + 1) /\
       sizeY p ÷ 4 <= coordY c <= sizeY p ÷ 4 + sizeY p ÷ 2) /\
    NoDup (barrierLocations g') /\
    Z.of_nat (length (barrierLocations g')) = 2 * (sizeY p ÷ 2 + 1) /\
    barrierCenters g' = [].
Proof.
  intros Hdims Hfuel. exists (marked g (cells1 p) []).
  split; [by apply createBarrier_1_enough|].
  simpl. rewrite cells1_dims16 by done.
  split; [done|]. split; [intros c; rewrite elem_of_box; lia|].
  split; [apply NoDup_box|]. split; [|done].
  rewrite length_box; unfold dims16 in Hdims; lia.
Qed.

Lemma fixed_vertical_bar_witness :
  exists g',
    createBarrierRef smallGrid 44 1 [] emptyGrid = Returned g' [] /\
    barrierLocations g' = box 12 4 13 12.
Proof.
  destruct (fixed_vertical_bar (rand := scriptedUint) (visitor := discCells) (order := leftToRight)
              smallGrid 44 [] emptyGrid) as (g' & Hrun & Hcells & _).
  - unfold dims16, INT16_MAX. simpl. lia.
  - unfold enoughFuel. simpl. lia.
  - exists g'. split; [done|]. rewrite Hcells. reflexivity.
Defined.

Section RandomBar.
Context {R : Type} {rand : RandomSource R} {visitor : NeighborhoodVisitor}
  {order : ArgumentOrder R}.
Variable p : Params.
Hypothesis Hdims : dims16 p.
Hypothesis Hrand : inclusive R.

(** What a returning call of type 2 leaves, with no conversion wrapping. *)
Lemma createBarrier_2_dims16 fuel (rng rng' : R) g g' :
  createBarrier p fuel 2 rng g = Returned g' rng' ->
  exists rx ry,
    sizeX p ÷ 10 <= rx <= sizeX p - sizeX p ÷ 10 /\
    sizeY p ÷ 4 <= ry <= sizeY p - sizeY p ÷ 4 /\
    g' = marked g (box (rx - 1) (ry - sizeY p ÷ 4) (rx + 1) (ry + sizeY p ÷ 4))
                [mkCoord rx ry].
Proof.
  intros Hrun.
  apply createBarrier_2_Returned in Hrun as (rx & ry & rng1 & Hx & Hy & ->).
  pose proof (Hrand (uint32 (sizeX p ÷ 10))
                (uint32 (sizeX p - sizeX p ÷ 10)) rng) as Bx.
  pose proof (Hrand (uint32 (sizeY p ÷ 4))
                (uint32 (sizeY p - sizeY p ÷ 4)) rng1) as By.
  rewrite Hx in Bx. rewrite Hy in By. simpl in Bx, By.
  unfold dims16, INT16_MAX in Hdims.
  rewrite !uint32_id in Bx, By by lia.
  exists rx, ry. split; [lia|]. split; [lia|].
  unfold cells2.
  rewrite (int16_id rx), (int16_id ry) by (unfold INT16_MIN, INT16_MAX; lia).
  rewrite !int16_id by (unfold INT16_MIN, INT16_MAX; lia). done.
Qed.
End RandomBar.

(** X6: on every grid of [int16_t] size, with a random source that keeps
    to its range, barrier type 2 returns with one centre (midX, midY),
    W/10 <= midX <= W - W/10 and H/4 <= midY <= H - H/4, and with one
    vertical bar around it, three cells wide: the cells with x in
    [midX - 1, midX + 1] and y in [midY - H/4, midY + H/4], each recorded
    once, 3 * (2 * (H/4) + 1) in all; the centre is one of them. *)
Theorem drawn_bar_shape {R : Type} {rand : RandomSource R}
    {visitor : NeighborhoodVisitor} {order : ArgumentOrder R} p fuel (rng : R) g :
  dims16 p -> inclusive R -> enoughFuel p fuel ->
  exists g' rng' c,
    createBarrier p fuel 2 rng g = Returned g' rng' /\
    barrierCenters g' = [c] /\
    sizeX p ÷ 10 <= coordX c <= sizeX p - sizeX p ÷ 10 /\
    sizeY p ÷ 4 <= coordY c <= sizeY p - sizeY p ÷ 4 /\
    barrierLocations g'
    = box (coordX c - 1) (coordY c - sizeY p ÷ 4)
          (coordX c + 1) (coordY c + sizeY p ÷ 4) /\
    c ∈ barrierLocations g' /\
    NoDup (barrierLocations g') /\
    Z.of_nat (length (barrierLocations g')) = 3 * (2 * (sizeY p ÷ 4) + 1).
Proof.
  intros Hdims Hrand Hfuel.
  destruct (createBarrier_2_enough p Hdims Hrand fuel rng g Hfuel)
    as (g' & rng' & Hrun).
  exists g', rng'.
  destruct (createBarrier_2_dims16 p Hdims Hrand _ _ _ _ _ Hrun)
    as (rx & ry & Hx & Hy & ->).
  exists (mkCoord rx ry). simpl.
  split; [done|]. split; [done|]. split; [done|]. split; [done|].
  split; [done|]. split; [apply elem_of_box; simpl; lia|].
  split; [apply NoDup_box|].
  rewrite length_box; unfold dims16 in Hdims; lia.
Qed.

Lemma drawn_bar_shape_witness :
  exists g' rng' c,
    createBarrierRef smallGrid 44 2 [3; 3] emptyGrid = Returned g' rng' /\
    barrierCenters g' = [c] /\
    Z.of_nat (length (barrierLocations g')) = 27.
Proof.
  destruct (drawn_bar_shape (rand := scriptedUint) (visitor := discCells) (order := leftToRight)
              smallGrid 44 [3; 3] emptyGrid)
    as (g' & rng' & c & Hrun & Hc & _ & _ & _ & _ & _ & Hlen).
  - unfold dims16, INT16_MAX. simpl. lia.
  - apply scripted_inclusive.
  - unfold enoughFuel. simpl. lia.
  - exists g', rng', c. split; [done|]. split; [done|]. rewrite Hlen.
    reflexivity.
Defined.

(** X7: on a grid of [int16_t] size at least 20 cells wide, the bar of a
    returning call of type 2 lies inside the grid exactly when its centre
    is not on the last row that can be drawn: when midY + H/4 < H.
    With midY = H - H/4 the bar reaches the row H. *)
Theorem drawn_bar_in_grid {R : Type} {rand : RandomSource R}
    {visitor : NeighborhoodVisitor} {order : ArgumentOrder R} p fuel (rng rng' : R) g g' :
  dims16 p -> inclusive R -> 20 <= sizeX p ->
  createBarrier p fuel 2 rng g = Returned g' rng' ->
  exists c,
    barrierCenters g' = [c] /\
    ((forall x, x ∈ barrierLocations g' -> inGrid p x) <->
     coordY c + sizeY p ÷ 4 < sizeY p).
Proof.
  intros Hdims Hrand HW Hrun.
  destruct (createBarrier_2_dims16 p Hdims Hrand _ _ _ _ _ Hrun)
    as (rx & ry & Hx & Hy & ->).
  exists (mkCoord rx ry). split; [done|]. simpl. split.
  - intros Hall.
    destruct (Hall (mkCoord rx (ry + sizeY p ÷ 4))) as [_ Hrow]; [|simpl in Hrow; lia].
    apply elem_of_box. simpl. unfold dims16 in Hdims. lia.
  - intros Hrow x Hx'%elem_of_box. unfold inGrid, dims16 in *. lia.
Qed.

Lemma drawn_bar_in_grid_witness :
  exists c,
    barrierCenters (marked emptyGrid (cells2 smallGrid 5 7) [mkCoord 5 7])
    = [c] /\
    ((forall x,
        x ∈ barrierLocations (marked emptyGrid (cells2 smallGrid 5 7)
                                [mkCoord 5 7]) -> inGrid smallGrid x) <->
     coordY c + sizeY smallGrid ÷ 4 < sizeY smallGrid).
Proof.
  apply (drawn_bar_in_grid (rand := scriptedUint) (visitor := discCells) (order := leftToRight)
           smallGrid 44 [3; 3] [] emptyGrid).
  - unfold dims16, INT16_MAX. simpl. lia.
  - apply scripted_inclusive.
  - simpl. lia.
  - vm_compute. reflexivity.
Defined.

(** ** The blocks of type 3 *)

(** X8: on every grid of [int16_t] size barrier type 3 returns, records no
    centre, and records the five blocks of [blocks3] one after the other:
    each spans 3 columns and W/3 + 1 rows, bounds included, which makes
    15 * (W/3 + 1) entries. *)
Theorem five_blocks_shape {R : Type} {rand : RandomSource R}
    {visitor : NeighborhoodVisitor} {order : ArgumentOrder R} p fuel (rng : R) g :
  dims16 p -> enoughFuel p fuel ->
  exists g',
    createBarrier p fuel 3 rng g = Returned g' rng /\
    barrierLocations g' = blocks3 p /\
    Z.of_nat (length (barrierLocations g')) = 15 * (sizeX p ÷ 3 + 1) /\
    barrierCenters g' = [].
Proof.
  intros Hdims Hfuel. exists (marked g (cells3 p) []).
  split; [by apply createBarrier_3_enough|].
  simpl. rewrite cells3_dims16 by done.
  split; [done|]. split; [|done].
  unfold blocks3. rewrite !length_app, !Nat2Z.inj_add.
  rewrite !length_box; unfold dims16 in Hdims; lia.
Qed.

Lemma five_blocks_shape_witness :
  exists g',
    createBarrierRef smallGrid 44 3 [] emptyGrid = Returned g' [] /\
    Z.of_nat (length (barrierLocations g')) = 135.
Proof.
  destruct (five_blocks_shape (rand := scriptedUint) (visitor := discCells) (order := leftToRight)
              smallGrid 44 [] emptyGrid) as (g' & Hrun & _ & Hlen & _).
  - unfold dims16, INT16_MAX. simpl. lia.
  - unfold enoughFuel. simpl. lia.
  - exists g'. split; [done|]. rewrite Hlen. reflexivity.
Defined.

Lemma NoDup_app_boxes (l : list Coord) minX minY maxX maxY :
  NoDup l ->
  (forall c, c ∈ l ->
     ~ (minX <= coordX c <= maxX /\ minY <= coordY c <= maxY)) ->
  NoDup (box minX minY maxX maxY ++ l).
Proof.
  intros Hl Hdisj. apply NoDup_app. split; [apply NoDup_box|].
  split; [|done]. intros c Hc%elem_of_box Hin. by apply (Hdisj c).
Qed.

(** X9: on a grid of [int16_t] size that is at least 12 cells wide and
    whose blocks are lower than half the grid (W/3 < H/2), the five blocks
    of type 3 do not overlap: a returning call records no cell twice. *)
Theorem five_blocks_disjoint {R : Type} {rand : RandomSource R}
    {visitor : NeighborhoodVisitor} {order : ArgumentOrder R} p fuel (rng rng' : R) g g' :
  dims16 p -> 12 <= sizeX p -> sizeX p ÷ 3 < sizeY p ÷ 2 ->
  createBarrier p fuel 3 rng g = Returned g' rng' ->
  NoDup (barrierLocations g').
Proof.
  intros Hdims HW Hlow Hrun.
  apply createBarrier_3_Returned in Hrun as [-> _]. simpl.
  rewrite cells3_dims16 by done. unfold blocks3, dims16 in *.
  repeat (apply NoDup_app_boxes;
          [|intros c; rewrite ?elem_of_app, !elem_of_box; lia]).
  apply NoDup_box.
Qed.

Lemma five_blocks_disjoint_witness :
  NoDup (barrierLocations (marked emptyGrid (cells3 (mkParams 24 24)) [])).
Proof.
  apply (five_blocks_disjoint (rand := scriptedUint) (visitor := discCells) (order := leftToRight)
           (mkParams 24 24) 52 [] [] emptyGrid).
  - unfold dims16, INT16_MAX. simpl. lia.
  - simpl. lia.
  - vm_compute. reflexivity.
  - vm_compute. reflexivity.
Defined.

(** X10: the bars of the types 1, 2 and 4 never record a cell twice, on
    any grid and for any draw. *)
Theorem bars_record_cells_once {R : Type} {rand : RandomSource R}
    {visitor : NeighborhoodVisitor} {order : ArgumentOrder R} p fuel t (rng rng' : R) g g' :
  t = 1 \/ t = 2 \/ t = 4 ->
  createBarrier p fuel t rng g = Returned g' rng' ->
  NoDup (barrierLocations g').
Proof.
  intros [->|[->| ->]] Hrun.
  - apply createBarrier_1_Returned in Hrun as [-> _]. apply NoDup_box.
  - apply createBarrier_2_Returned in Hrun as (rx & ry & ? & _ & _ & ->).
    apply NoDup_box.
  - apply createBarrier_4_Returned in Hrun as [-> _]. apply NoDup_box.
Qed.

Lemma bars_record_cells_once_witness :
  NoDup (barrierLocations (marked emptyGrid (cells4 smallGrid) [])).
Proof.
  apply (bars_record_cells_once (rand := scriptedUint) (visitor := discCells) (order := leftToRight)
           smallGrid 44 4 [] [] emptyGrid).
  - right. right. reflexivity.
  - vm_compute. reflexivity.
Defined.

(** ** drawBox *)

Lemma stamp_unfold l g :
  stamp l g
  = {| data := data (marked g l []);
       barrierLocations := barrierLocations g ++ l;
       barrierCenters := barrierCenters g;
       setLog := setLog g ++ map (fun c => (c, BARRIER)) l |}.
Proof.
  revert g. induction l as [|c l IH]; intros g.
  - destruct g. simpl. by rewrite !app_nil_r.
  - unfold stamp in *. cbn [foldl]. rewrite IH. simpl.
    by rewrite <- !app_assoc.
Qed.

Lemma box_empty minX minY maxX maxY :
  maxX < minX \/ maxY < minY -> box minX minY maxX maxY = [].
Proof.
  intros [Hx|Hy]; unfold box.
  - rewrite (seqZ_nil minX) by lia. done.
  - rewrite (seqZ_nil minY) by lia.
    generalize (seqZ minX (maxX + 1 - minX)). by induction l.
Qed.

(** X11: [drawBox], given bounds below the largest [int16_t] and enough
    fuel, returns after marking the rectangle [minX..maxX] x [minY..maxY],
    bounds included, column by column: these cells are appended to
    [barrierLocations] and to the log of [grid.set], they hold [BARRIER]
    afterwards, every other cell and [barrierCenters] are as before; a
    rectangle with [maxX < minX] or [maxY < minY] changes nothing. *)
Theorem drawBox_marks_rectangle fuel minX minY maxX maxY g :
  INT16_MIN <= minX -> maxX < INT16_MAX ->
  INT16_MIN <= minY -> maxY < INT16_MAX ->
  (Z.to_nat (maxX + 1 - minX) < fuel)%nat ->
  (Z.to_nat (maxY + 1 - minY) < fuel)%nat ->
  exists g',
    drawBox fuel minX minY maxX maxY g = Some g' /\
    barrierLocations g' = barrierLocations g ++ box minX minY maxX maxY /\
    setLog g'
    = setLog g ++ map (fun c => (c, BARRIER)) (box minX minY maxX maxY) /\
    barrierCenters g' = barrierCenters g /\
    (forall c,
       data g' !! c
       = if decide (minX <= coordX c <= maxX /\ minY <= coordY c <= maxY)
         then Some BARRIER else data g !! c) /\
    (maxX < minX \/ maxY < minY -> g' = g).
Proof.
  intros HminX HmaxX HminY HmaxY Hfx Hfy.
  exists (stamp (box minX minY maxX maxY) g).
  split; [by apply drawBox_enough|].
  rewrite stamp_unfold. cbn [barrierLocations setLog barrierCenters data].
  split; [done|]. split; [done|]. split; [done|]. split.
  - intros c. case_decide as Hc.
    + apply marked_data. by apply elem_of_box.
    + apply marked_data_other. by rewrite elem_of_box.
  - intros Hempty. rewrite box_empty by done. destruct g. simpl.
    by rewrite !app_nil_r.
Qed.

Lemma drawBox_marks_rectangle_witness :
  exists g',
    drawBox 5 2 3 4 5 populatedGrid = Some g' /\
    barrierLocations g'
    = [mkCoord 9 9; mkCoord 9 10;
       mkCoord 2 3; mkCoord 2 4; mkCoord 2 5;
       mkCoord 3 3; mkCoord 3 4; mkCoord 3 5;
       mkCoord 4 3; mkCoord 4 4; mkCoord 4 5].
Proof.
  destruct (drawBox_marks_rectangle 5 2 3 4 5 populatedGrid)
    as (g' & Hrun & Hcells & _).
  - unfold INT16_MIN. lia.
  - unfold INT16_MAX. lia.
  - unfold INT16_MIN. lia.
  - unfold INT16_MAX. lia.
  - simpl. lia.
  - simpl. lia.
  - exists g'. split; [done|]. rewrite Hcells. reflexivity.
Defined.

Lemma for16_S {S : Type} n x hi (body : Z -> S -> option S) s :
  for16 (Datatypes.S n) x hi body s
  = if x <=? hi then
      match body x s with
      | Some s' => for16 n (int16 (x + 1)) hi body s'
      | None => None
      end
    else Some s.
Proof. reflexivity. Qed.

(** X12: [drawBox] never returns from a rectangle that is not empty and
    whose [maxX] or [maxY] is the largest [int16_t]: the counter wraps
    around before it can exceed the bound. *)
Theorem drawBox_stuck_at_int16_max fuel minX minY maxX maxY g :
  minX <= maxX <= INT16_MAX -> minY <= maxY <= INT16_MAX ->
  maxX = INT16_MAX \/ maxY = INT16_MAX ->
  drawBox fuel minX minY maxX maxY g = None.
Proof.
  intros HX HY [->| ->]; unfold drawBox.
  - apply for16_top. lia.
  - destruct fuel as [|n]; [done|].
    rewrite (for16_S n minX maxX), (proj2 (Z.leb_le _ _)) by lia.
    rewrite for16_top by lia. done.
Qed.

Lemma drawBox_stuck_at_int16_max_witness :
  drawBox 1000 32766 0 32767 0 emptyGrid = None.
Proof.
  apply drawBox_stuck_at_int16_max.
  - unfold INT16_MAX. lia.
  - unfold INT16_MAX. lia.
  - left. reflexivity.
Defined.

(** ** Spots and islands *)

(** X14: on a grid of [int16_t] size with fewer than 6 rows the vertical
    slice of type 6 is 0: all five centres are the cell (W/2, 0), and the
    cells the visitor reaches from it are recorded five times over. *)
Theorem low_grid_spots_coincide {R : Type} {rand : RandomSource R}
    {visitor : NeighborhoodVisitor} {order : ArgumentOrder R} p fuel (rng : R) g :
  dims16 p -> sizeY p < 6 ->
  exists g',
    createBarrier p fuel 6 rng g = Returned g' rng /\
    barrierCenters g' = replicate 5 (mkCoord (sizeX p ÷ 2) 0) /\
    barrierLocations g'
    = mjoin (replicate 5 (visitNeighborhood p (mkCoord (sizeX p ÷ 2) 0) 5)).
Proof.
  intros Hdims Hlow.
  assert (centers6 p = replicate 5 (mkCoord (sizeX p ÷ 2) 0)) as Hc.
  { rewrite centers6_dims16 by done.
    assert (sizeY p ÷ 6 = 0) as -> by (unfold dims16 in Hdims; lia).
    change (seqZ 1 5) with [1; 2; 3; 4; 5]. cbn [fmap list_fmap].
    by rewrite !Z.mul_0_r. }
  exists (marked g (spots p 5 (replicate 5 (mkCoord (sizeX p ÷ 2) 0)))
            (replicate 5 (mkCoord (sizeX p ÷ 2) 0))).
  split; [by rewrite createBarrier_6, Hc|]. split; reflexivity.
Qed.

Lemma low_grid_spots_coincide_witness :
  exists g',
    createBarrierRef (mkParams 24 5) 0 6 [] emptyGrid = Returned g' [] /\
    barrierCenters g' = replicate 5 (mkCoord 12 0).
Proof.
  destruct (low_grid_spots_coincide (rand := scriptedUint)
              (visitor := discCells) (order := leftToRight) (mkParams 24 5) 0 [] emptyGrid)
    as (g' & Hrun & Hcenters & _).
  - unfold dims16, INT16_MAX. simpl. lia.
  - simpl. lia.
  - exists g'. split; [done|]. rewrite Hcenters. reflexivity.
Defined.

(** X15: on a grid of [int16_t] size with at least 24 columns and rows,
    with a random source that keeps to its range, every centre of a
    returning call of type 5 keeps the margin of 12 cells from each edge:
    12 <= x <= W - 12 and 12 <= y <= H - 12. *)
Theorem islands_keep_the_margin {R : Type} {rand : RandomSource R}
    {visitor : NeighborhoodVisitor} {order : ArgumentOrder R} p fuel (rng rng' : R) g g' :
  dims16 p -> inclusive R -> 24 <= sizeX p -> 24 <= sizeY p ->
  createBarrier p fuel 5 rng g = Returned g' rng' ->
  Forall (fun c => 12 <= coordX c <= sizeX p - 12 /\
                   12 <= coordY c <= sizeY p - 12)
         (barrierCenters g').
Proof.
  intros Hdims Hrand HW HH Hrun.
  apply createBarrier_5_Returned in Hrun
    as (cs & _ & _ & _ & (c0 & rng0 & Hlen & Hre) & ->).
  simpl.
  destruct (resample_spec p 12
              (fun c => 12 <= coordX c <= sizeX p - 12 /\
                        12 <= coordY c <= sizeY p - 12) c0 rng0)
    as [_ Hall]; [|done|by rewrite Hre in Hall].
  intros rng1. unfold randomLoc. unfold dims16, INT16_MAX in Hdims.
  destruct (xDrawnFirst rng1).
  - pose proof (Hrand 12 (uint32 (sizeX p - 12)) rng1) as Hx.
    destruct (randomUint _ _ rng1) as [rx rng2].
    pose proof (Hrand 12 (uint32 (sizeY p - 12)) rng2) as Hy.
    destruct (randomUint _ _ rng2) as [ry rng3].
    rewrite !uint32_id in Hx, Hy by lia. simpl in Hx, Hy. simpl.
    rewrite !int16_id by (unfold INT16_MIN, INT16_MAX; lia). lia.
  - pose proof (Hrand 12 (uint32 (sizeY p - 12)) rng1) as Hy.
    destruct (randomUint _ _ rng1) as [ry rng2].
    pose proof (Hrand 12 (uint32 (sizeX p - 12)) rng2) as Hx.
    destruct (randomUint _ _ rng2) as [rx rng3].
    rewrite !uint32_id in Hx, Hy by lia. simpl in Hx, Hy. simpl.
    rewrite !int16_id by (unfold INT16_MIN, INT16_MAX; lia). lia.
Qed.

Lemma islands_keep_the_margin_witness :
  Forall (fun c => 12 <= coordX c <= sizeX grid100 - 12 /\
                   12 <= coordY c <= sizeY grid100 - 12)
         (barrierCenters islandGrid).
Proof.
  apply (islands_keep_the_margin (rand := scriptedUint)
           (visitor := discCells) (order := leftToRight) grid100 100 islandScript [] emptyGrid).
  - unfold dims16, INT16_MAX. simpl. lia.
  - apply scripted_inclusive.
  - simpl. lia.
  - simpl. lia.
  - change (createBarrierRef grid100 100 5 islandScript emptyGrid
            = Returned islandGrid []).
    vm_compute. reflexivity.
Defined.

Lemma square_le_length (c : Coord) m :
  0 <= m -> m * m <= coordX c * coordX c + coordY c * coordY c ->
  (Coord_length c <? m) = false.
Proof.
  intros Hm Hle. apply Z.ltb_ge. unfold Coord_length.
  apply Z.sqrt_le_square; [nia | done | done].
Qed.

Lemma separated_checked (centers : list Coord) :
  length centers = numIslands ->
  Forall (fun c => 0 <= coordX c <= INT16_MAX /\ 0 <= coordY c <= INT16_MAX)
         centers ->
  separated 12 centers -> checkPlacement 12 centers = true.
Proof.
  intros Hlen Hall Hsep. unfold checkPlacement.
  apply (foldl_nested_true
           (fun a b => Coord_length (Coord_sub (centers !!! a) (centers !!! b))
                       <? 12)
           (fun a => seq (a + 1) (numIslands - (a + 1)))).
  split; [done|]. intros a b Ha%elem_of_seq Hb%elem_of_seq.
  unfold numIslands in *.
  destruct (lookup_lt_is_Some_2 centers a) as [ca Hca]; [lia|].
  destruct (lookup_lt_is_Some_2 centers b) as [cb Hcb]; [lia|].
  rewrite (list_lookup_total_correct _ _ _ Hca).
  rewrite (list_lookup_total_correct _ _ _ Hcb).
  pose proof (proj1 (Forall_lookup _ _) Hall _ _ Hca) as [Hax Hay].
  pose proof (proj1 (Forall_lookup _ _) Hall _ _ Hcb) as [Hbx Hby].
  apply square_le_length; [lia|]. unfold Coord_sub. simpl.
  rewrite !int16_id by (unfold INT16_MIN, INT16_MAX in *; lia).
  apply (Hsep a b); [lia|done..].
Qed.

(** X16: for twelve centres with coordinates in [0, 32767], the check of
    the sampling loop accepts a sample exactly when every two centres are
    at Euclidean distance 12 or more: it lets no close pair through, and
    it rejects no separated sample. *)
Theorem check_accepts_separated_samples (centers : list Coord) :
  length centers = numIslands ->
  Forall (fun c => 0 <= coordX c <= INT16_MAX /\ 0 <= coordY c <= INT16_MAX)
         centers ->
  checkPlacement 12 centers = true <-> separated 12 centers.
Proof.
  intros Hlen Hall. split.
  - apply checked_separated; [done|].
    apply (Forall_impl _ _ _ Hall). intros c [Hx Hy].
    unfold coord16, INT16_MIN, INT16_MAX in *. lia.
  - by apply separated_checked.
Qed.

Lemma check_accepts_separated_samples_witness :
  checkPlacement 12 islandCenters = true <-> separated 12 islandCenters.
Proof.
  apply check_accepts_separated_samples; [reflexivity|].
  unfold islandCenters, INT16_MAX. repeat constructor; simpl; lia.
Defined.

Lemma check_separates_script :
  separated 12
    (resample (rand := scriptedUint) (order := leftToRight) grid100 12
       (replicate numIslands (mkCoord 0 0)) islandScript).1.
Proof.
  change (separated 12 islandCenters).
  apply checked_separated; [reflexivity| |by vm_compute].
  unfold islandCenters, coord16, INT16_MIN, INT16_MAX.
  repeat constructor; simpl; lia.
Qed.

Section FirstSample.
Context {R : Type} {rand : RandomSource R} {visitor : NeighborhoodVisitor}
  {order : ArgumentOrder R}.
Variable p : Params.

Lemma placementLoop_first_pass margin n centers (rng : R) :
  checkPlacement margin (resample p margin centers rng).1 = true ->
  placementLoop p margin (S (S n)) false centers rng
  = Some (resample p margin centers rng).
Proof.
  intros Hcheck. cbn [placementLoop negb].
  destruct (resample p margin centers rng) as [c1 rng1].
  cbn [fst] in Hcheck. by rewrite Hcheck.
Qed.

Lemma randomLoc_on_grid (rng : R) :
  dims16 p -> inclusive R -> 24 <= sizeX p -> 24 <= sizeY p ->
  0 <= coordX (randomLoc p 12 rng).1 <= INT16_MAX /\
  0 <= coordY (randomLoc p 12 rng).1 <= INT16_MAX.
Proof.
  intros Hdims Hrand HW HH. unfold randomLoc. unfold dims16, INT16_MAX in *.
  destruct (xDrawnFirst rng).
  - pose proof (Hrand 12 (uint32 (sizeX p - 12)) rng) as Hx.
    destruct (randomUint _ _ rng) as [rx rng2].
    pose proof (Hrand 12 (uint32 (sizeY p - 12)) rng2) as Hy.
    destruct (randomUint _ _ rng2) as [ry rng3].
    rewrite !uint32_id in Hx, Hy by lia. simpl in Hx, Hy. simpl.
    rewrite !int16_id by (unfold INT16_MIN, INT16_MAX; lia). lia.
  - pose proof (Hrand 12 (uint32 (sizeY p - 12)) rng) as Hy.
    destruct (randomUint _ _ rng) as [ry rng2].
    pose proof (Hrand 12 (uint32 (sizeX p - 12)) rng2) as Hx.
    destruct (randomUint _ _ rng2) as [rx rng3].
    rewrite !uint32_id in Hx, Hy by lia. simpl in Hx, Hy. simpl.
    rewrite !int16_id by (unfold INT16_MIN, INT16_MAX; lia). lia.
Qed.
End FirstSample.

(** X17: on a grid of [int16_t] size with at least 24 columns and rows,
    with a random source that keeps to its range, and whichever order the
    implementation draws x and y in: when the twelve centres of the first
    pass of the sampling loop, as that order draws them, are pairwise 12
    or more apart, the call of type 5 returns after that one pass, with
    these centres, the cells the visitor reaches from them, and the random
    source as the pass left it. *)
Theorem separated_first_sample_is_taken {R : Type} {rand : RandomSource R}
    {visitor : NeighborhoodVisitor} {order : ArgumentOrder R} p fuel (rng : R) g :
  dims16 p -> inclusive R -> 24 <= sizeX p -> 24 <= sizeY p ->
  (2 <= fuel)%nat ->
  separated 12 (resample p 12 (replicate numIslands (mkCoord 0 0)) rng).1 ->
  createBarrier p fuel 5 rng g
  = Returned
      (marked g
         (spots p 3 (resample p 12 (replicate numIslands (mkCoord 0 0)) rng).1)
         (resample p 12 (replicate numIslands (mkCoord 0 0)) rng).1)
      (resample p 12 (replicate numIslands (mkCoord 0 0)) rng).2.
Proof.
  intros Hdims Hrand HW HH Hfuel Hsep.
  destruct (resample_spec p 12
              (fun c => 0 <= coordX c <= INT16_MAX /\ 0 <= coordY c <= INT16_MAX)
              (replicate numIslands (mkCoord 0 0)) rng) as [Hlen Hall];
    [intros; by apply randomLoc_on_grid|done|].
  destruct fuel as [|[|n]]; [lia..|].
  unfold createBarrier. rewrite cleared_marked.
  change (uint32 (3 * 4)) with 12.
  rewrite placementLoop_first_pass by (by apply separated_checked).
  destruct (resample p 12 _ rng) as [cs rng1]. cbn [fst snd] in *.
  by rewrite (islands_indexed p 3 cs g [] []).
Qed.

Lemma separated_first_sample_is_taken_witness :
  createBarrierRef grid100 2 5 islandScript emptyGrid
  = Returned islandGrid [].
Proof.
  apply (separated_first_sample_is_taken (rand := scriptedUint)
           (visitor := discCells) (order := leftToRight) grid100 2 islandScript emptyGrid).
  - unfold dims16, INT16_MAX. simpl. lia.
  - apply scripted_inclusive.
  - simpl. lia.
  - simpl. lia.
  - lia.
  - apply check_separates_script.
Defined.

(** The order of the two draws decides the sample. On a 100 x 60 grid the
    draws of [islandScript] give twelve separated centres when x is drawn
    first, and the call returns after one pass; drawn y first, the same
    draws put two centres at (12,24) and (12,23), the sample is rejected,
    and two passes are not enough. *)
Example draw_order_decides_the_sample :
  (exists g' rng',
     createBarrier (rand := scriptedUint) (visitor := discCells)
       (order := leftToRight) (mkParams 100 60) 2 5 islandScript emptyGrid
     = Returned g' rng') /\
  createBarrier (rand := scriptedUint) (visitor := discCells)
    (order := rightToLeft) (mkParams 100 60) 2 5 islandScript emptyGrid
  = OutOfFuel /\
  (resample (rand := scriptedUint) (order := rightToLeft) (mkParams 100 60) 12
     (replicate numIslands (mkCoord 0 0)) islandScript).1 !! 1%nat
  = Some (mkCoord 12 24) /\
  (resample (rand := scriptedUint) (order := rightToLeft) (mkParams 100 60) 12
     (replicate numIslands (mkCoord 0 0)) islandScript).1 !! 4%nat
  = Some (mkCoord 12 23).
Proof.
  split.
  - eexists _, _. vm_compute. reflexivity.
  - split; [vm_compute; reflexivity|]. split; vm_compute; reflexivity.
Qed.
